(** * FiberThreads

    A shallow embedding of [include/fiber_threads.hpp] (namespace
    [asio_fiber]): the thread pool that hosts one boost.fiber scheduler per
    thread and feeds them from one shared task channel.

    The class is a process-wide singleton that is mutated in place, so its
    member functions are written in a small state monad over the process;
    the monad also has the three ways a C++ call can fail to return a value:
    an exception, a thread parked on the condition variable, a fiber
    suspended in the channel.  The bodies of the spawned threads are
    closures that run later, on other threads: they are kept as data (a list
    of actions) inside the thread handle, and the section on start-up runs
    them, interleaved in every possible way, against the barrier and against
    the end of [init], whose locals they refer to.

    Definitions come first: the collaborators, the pool, its four member
    functions, the dispatch fiber, the start-up turn by turn, the loop of
    [join] statement by statement; the properties follow. *)

From Stdlib Require Import String DecimalString DecimalNat List Bool Arith Lia.
From ExtLib Require Import Structures.Monad.
Import ListNotations.
Import MonadNotation.
Local Open Scope monad_scope.

(** ** Collaborators: boost.fiber and the standard library *)

(** [boost::fibers::channel_op_status], the two values this file meets. *)
Inductive channel_op_status := success | closed.

(** [boost::fibers::unbuffered_channel<T>]: a closable hand-off point
    without a buffer.  A producer that calls [push] on an open channel puts
    its value on offer and is suspended until a consumer has taken the value
    or the channel is closed.  [handed] are the values on offer, in the
    order their producers came: the first is in the slot, the producers of
    the others wait for the slot. *)
Record unbuffered_channel (T : Type) := mk_channel {
  is_closed : bool;
  handed : list T
}.

Arguments mk_channel {T} is_closed handed.
Arguments is_closed {T} u.
Arguments handed {T} u.

(** [push] on an open channel, up to the point where the producer is
    suspended: its value is on offer behind the others. *)
Definition channel_offer {T} (ch : unbuffered_channel T) (v : T)
  : unbuffered_channel T :=
  mk_channel false (handed ch ++ [v]).

(** [push] from the point where the producer is resumed: [closed] if the
    channel was closed before the value was taken, [success] otherwise. *)
Definition channel_answer {T} (ch : unbuffered_channel T)
  : channel_op_status :=
  if is_closed ch then closed else success.

(** [pop] by a consumer when a value is on offer: it takes the first one
    (and the producer of that value is resumed). *)
Definition channel_take {T} (ch : unbuffered_channel T)
  : option (T * unbuffered_channel T) :=
  match handed ch with
  | v :: rest => Some (v, mk_channel (is_closed ch) rest)
  | [] => None
  end.


(** The scheduling algorithms of [boost::fibers::algo] the pool is
    instantiated with. *)
Inductive algorithm := round_robin | shared_work | work_stealing.

(** The call of [boost::fibers::use_scheduling_algorithm] a thread makes. *)
Inductive scheduler_call :=
| use_default (a : algorithm)
| use_shared_work (suspend : bool)
| use_work_stealing (thread_count : nat) (suspend : bool).

(** The three definitions of [install_fiber_scheduling_algorithm]: the
    primary template passes nothing on, the two specialisations pass what
    their algorithm's constructor takes. *)
Definition install_fiber_scheduling_algorithm
    (a : algorithm) (thread_count : nat) (suspend : bool) : scheduler_call :=
  match a with
  | shared_work => use_shared_work suspend
  | work_stealing => use_work_stealing thread_count suspend
  | round_robin => use_default round_robin
  end.

(** A thread of the process: the one that called into the pool, or the
    thread the pool started with loop index [i]. *)
Inductive thread_ref := calling_thread | spawned_thread (i : nat).

Definition thread_ref_eqb (a b : thread_ref) : bool :=
  match a, b with
  | calling_thread, calling_thread => true
  | spawned_thread i, spawned_thread j => Nat.eqb i j
  | _, _ => false
  end.

(** What a thread does during start-up and shut-down, one constructor per
    statement of the thread lambda of [init]. *)
Inductive action :=
| this_thread_name_set (name : string)
| install_algorithm (a : algorithm) (suspend : bool)
| barrier_wait (b : nat)
| install_task_post_fiber
| wait_until_stopped.

(** Modelled from the spec: [thread_barrier] of [thread_barrier.hpp], which
    is not part of the sources at hand.  A single-use rendezvous point that is
    constructed with the number of parties; [wait] returns only after that
    many threads have called it. *)
Record thread_barrier := mk_barrier { parties : nat }.

(** [std::thread]: the function the thread runs, and whether the handle
    still owns a thread of execution. *)
Record std_thread := mk_thread {
  thread_index : nat;
  thread_main : list action;
  joinable : bool
}.

(** [oss << "Fiber-Thread-" << i] *)
Definition fiber_thread_name (i : nat) : string :=
  String.append "Fiber-Thread-" (NilEmpty.string_of_uint (Nat.to_uint i)).

(** ** Tasks *)

(** [std::function<void()>]: a closure that acts on the memory it captured
    (the type [W]) and either returns or lets an exception escape. *)
Inductive task_result (W : Type) :=
| task_returns (w : W)
| task_throws (w : W).

Arguments task_returns {W} w.
Arguments task_throws {W} w.

Definition task_type (W : Type) := W -> task_result W.

(** ** The pool and the process around it *)

(** The data members of [FiberThreads].  [run_mtx] has no field: every
    critical section below is one transition.  [m_cnd_stop] is the list of
    threads suspended in its [wait].  The only instance is the function-local
    static of [instance()], which is zero-initialised before its defaulted
    constructor runs. *)
Record FiberThreads (W : Type) := mk_pool {
  running : bool;
  fiber_thread_count : nat;
  m_cnd_stop : list thread_ref;
  m_threads : list std_thread;
  task_channel : unbuffered_channel (task_type W)
}.

Arguments mk_pool {W} running fiber_thread_count m_cnd_stop m_threads
  task_channel.
Arguments running {W} f.
Arguments fiber_thread_count {W} f.
Arguments m_cnd_stop {W} f.
Arguments m_threads {W} f.
Arguments task_channel {W} f.

Inductive event :=
| did (who : thread_ref) (a : action)
| notified_all (woken : list thread_ref)
| thread_joined (k : nat).

(** The process: the singleton, the barriers constructed so far (a barrier is
    named by its position), the scheduler each thread has installed, the
    threads that host a dispatch fiber, and everything the threads did
    through the pool, oldest first. *)
Record process (W : Type) := mk_process {
  instance : FiberThreads W;
  barriers : list thread_barrier;
  schedulers : list (thread_ref * scheduler_call);
  fibers : list thread_ref;
  trace : list event
}.

Arguments mk_process {W} instance barriers schedulers fibers trace.
Arguments instance {W} p.
Arguments barriers {W} p.
Arguments schedulers {W} p.
Arguments fibers {W} p.
Arguments trace {W} p.

Definition ft0 (W : Type) : FiberThreads W :=
  mk_pool false 0 [] [] (mk_channel false []).

Definition process0 (W : Type) : process W :=
  mk_process (ft0 W) [] [] [] [].

Section Pool.

(** The memory the tasks act on, and the class template's first parameter.
    ([fiber_group_id], the second one, is used nowhere in the class.) *)
Context {W : Type}.
Variable fiber_scheduling_algorithm : algorithm.

(** *** Updating one member *)

Definition set_running (b : bool) (ft : FiberThreads W) : FiberThreads W :=
  mk_pool b (fiber_thread_count ft) (m_cnd_stop ft) (m_threads ft)
          (task_channel ft).

Definition set_fiber_thread_count (n : nat) (ft : FiberThreads W)
  : FiberThreads W :=
  mk_pool (running ft) n (m_cnd_stop ft) (m_threads ft) (task_channel ft).

Definition set_m_cnd_stop (ws : list thread_ref) (ft : FiberThreads W)
  : FiberThreads W :=
  mk_pool (running ft) (fiber_thread_count ft) ws (m_threads ft)
          (task_channel ft).

Definition set_m_threads (ts : list std_thread) (ft : FiberThreads W)
  : FiberThreads W :=
  mk_pool (running ft) (fiber_thread_count ft) (m_cnd_stop ft) ts
          (task_channel ft).

Definition set_task_channel (ch : unbuffered_channel (task_type W))
    (ft : FiberThreads W) : FiberThreads W :=
  mk_pool (running ft) (fiber_thread_count ft) (m_cnd_stop ft) (m_threads ft)
          ch.

Definition on_instance (f : FiberThreads W -> FiberThreads W) (p : process W)
  : process W :=
  mk_process (f (instance p)) (barriers p) (schedulers p) (fibers p) (trace p).

Definition add_barrier (b : thread_barrier) (p : process W) : process W :=
  mk_process (instance p) (barriers p ++ [b]) (schedulers p) (fibers p)
             (trace p).

Definition add_scheduler (who : thread_ref) (c : scheduler_call)
    (p : process W) : process W :=
  mk_process (instance p) (barriers p) (schedulers p ++ [(who, c)]) (fibers p)
             (trace p).

Definition add_fiber (who : thread_ref) (p : process W) : process W :=
  mk_process (instance p) (barriers p) (schedulers p) (fibers p ++ [who])
             (trace p).

Definition log (e : event) (p : process W) : process W :=
  mk_process (instance p) (barriers p) (schedulers p) (fibers p)
             (trace p ++ [e]).

(** *** The monad of member-function calls *)

Inductive exn := std_system_error (what : string).

(** How a call ends: it returns, an exception leaves it, or the thread that
    made it does not get on.

    [Blocks]: the thread is parked on [m_cnd_stop].  What it would go on to
    do is not kept: the one member function that parks is [join], in its
    first statement, so that the thread, once woken, does what a new call of
    [join] does; a spawned thread parks in the last statement of its
    function.

    [Suspends]: the fiber is suspended inside [push]; [p] is the process it
    leaves behind and [k] is the rest of the call, run in the process as it
    is when the fiber is resumed. *)
Inductive outcome (A : Type) :=
| Returns (a : A) (p : process W)
| Throws (e : exn) (p : process W)
| Blocks (p : process W)
| Suspends (p : process W) (k : process W -> outcome A).

Arguments Returns {A} a p.
Arguments Throws {A} e p.
Arguments Blocks {A} p.
Arguments Suspends {A} p k.

Definition call (A : Type) : Type := process W -> outcome A.

Fixpoint outcome_bind {A B} (o : outcome A) (k : A -> process W -> outcome B)
  : outcome B :=
  match o with
  | Returns a p' => k a p'
  | Throws e p' => Throws e p'
  | Blocks p' => Blocks p'
  | Suspends p' rest => Suspends p' (fun q => outcome_bind (rest q) k)
  end.

Definition call_bind {A B} (c : call A) (k : A -> call B) : call B :=
  fun p => outcome_bind (c p) k.

#[global] Instance Monad_call : Monad call :=
  {| ret := fun _ a p => Returns a p; bind := @call_bind |}.

Definition gets {A} (f : FiberThreads W -> A) : call A :=
  fun p => Returns (f (instance p)) p.

Definition modify (f : process W -> process W) : call unit :=
  fun p => Returns tt (f p).

Definition throw {A} (e : exn) : call A := fun p => Throws e p.

Definition block {A} : call A := fun p => Blocks p.

Fixpoint for_each {A} (l : list A) (body : A -> call unit) : call unit :=
  match l with
  | [] => ret tt
  | x :: l' => body x ;; for_each l' body
  end.

(** [for (std::size_t i = lo; i < hi; ++i) body(i)]; the bound is at most
    [SIZE_MAX], so [++i] never wraps and [nat] stands for [std::size_t]
    throughout. *)
Definition for_range (lo hi : nat) (body : nat -> call unit) : call unit :=
  for_each (seq lo (hi - lo)) body.

(** *** What a thread's actions do to the process *)

(** [m_cnd_stop.wait(lk, [this]() { return !running; })] *)
Definition wait_not_running (who : thread_ref) : call unit :=
  r <- gets (@running W) ;;
  if r then
    ws <- gets (@m_cnd_stop W) ;;
    modify (on_instance (set_m_cnd_stop (ws ++ [who]))) ;;
    block
  else ret tt.

(** One statement of a thread, as what it has done to the process once it
    is over.  The scheduler is installed with the value [fiber_thread_count]
    has when the statement runs: both the lambda and [init] read the member.
    For [b.wait()] and for the call of [install_task_post_fiber] that is the
    entry in the trace and the fiber; whether the thread gets that far, that
    is whether the barrier lets it go and whether the two locals of [init]
    still exist, is not decided here but in the section on start-up, which
    takes the threads turn by turn. *)
Definition perform (who : thread_ref) (a : action) : call unit :=
  match a with
  | this_thread_name_set _ => modify (log (did who a))
  | install_algorithm alg suspend =>
      n <- gets (@fiber_thread_count W) ;;
      modify (add_scheduler who
                (install_fiber_scheduling_algorithm alg n suspend)) ;;
      modify (log (did who a))
  | barrier_wait _ => modify (log (did who a))
  | install_task_post_fiber =>
      modify (add_fiber who) ;;
      modify (log (did who a))
  | wait_until_stopped =>
      wait_not_running who ;;
      modify (log (did who a))
  end.

(** The lambda handed to [std::thread] in [init]: [b] is the barrier it
    captured by reference, [i] the loop index it captured by value. *)
Definition thread_lambda (b i : nat) (suspend_worker_thread : bool)
  : list action :=
  [ this_thread_name_set (fiber_thread_name i);
    install_algorithm fiber_scheduling_algorithm suspend_worker_thread;
    barrier_wait b;
    install_task_post_fiber;
    wait_until_stopped ].

(** [thread_barrier b(n)].  [barriers] keeps every barrier that was
    constructed, so that a lambda can name the one it captured; the object
    itself is a local of [init] and ends with the call ([in_scope] in the
    section on start-up). *)
Definition new_thread_barrier (n : nat) : call nat :=
  fun p => Returns (List.length (barriers p)) (add_barrier (mk_barrier n) p).

(** [m_threads.push_back(std::thread(f))], where the system has a thread to
    give; the [std::system_error] of a constructor that cannot start one is
    left out. *)
Definition m_threads_push_back (t : std_thread) : call unit :=
  ts <- gets (@m_threads W) ;;
  modify (on_instance (set_m_threads (ts ++ [t]))).

(** ** The member functions *)

Definition init (count : nat) (use_this_thread suspend_worker_thread : bool)
  : call unit :=
  (* Check param for init. *)
  if negb use_this_thread && (count <? 1) then ret tt
  else
    (* Only init when not running. *)
    r <- gets (@running W) ;;
    if r then ret tt
    else
      modify (on_instance (set_running true)) ;;
      modify (on_instance (set_fiber_thread_count count)) ;;
      n <- gets (@fiber_thread_count W) ;;
      (* At least we need 2 threads for other fiber algo. *)
      if use_this_thread && (n <? 2) then
        (* Use round_robin for this (main) thread only. *)
        perform calling_thread
                (install_algorithm round_robin suspend_worker_thread) ;;
        perform calling_thread install_task_post_fiber
      else
        b <- new_thread_barrier n ;;
        for_range (if use_this_thread then 1 else 0) n
          (fun i => m_threads_push_back
                      (mk_thread i (thread_lambda b i suspend_worker_thread)
                                 true)) ;;
        if use_this_thread then
          perform calling_thread
                  (install_algorithm fiber_scheduling_algorithm
                                     suspend_worker_thread) ;;
          (* sync with worker threads. *)
          perform calling_thread (barrier_wait b) ;;
          perform calling_thread install_task_post_fiber
        else ret tt.

(** [task_channel.push(task)], with the status it returns: [closed] at once
    on a closed channel; on an open one the task is put on offer, the caller
    is suspended, and the status is decided when it is resumed. *)
Definition task_channel_push (task : task_type W) : call channel_op_status :=
  fun p =>
    if is_closed (task_channel (instance p)) then Returns closed p
    else
      Suspends
        (on_instance
           (set_task_channel (channel_offer (task_channel (instance p)) task))
           p)
        (fun q => Returns (channel_answer (task_channel (instance q))) q).

(** [post] is a [void] function whose only statement is the push: the status
    is computed and not looked at. *)
Definition post (task : task_type W) : call unit :=
  _ <- task_channel_push task ;;
  ret tt.


(** [m_cnd_stop.notify_all()] *)
Definition notify_all : call unit :=
  ws <- gets (@m_cnd_stop W) ;;
  modify (on_instance (set_m_cnd_stop [])) ;;
  modify (log (notified_all ws)).

Definition notify_stop : call unit :=
  modify (on_instance (set_running false)) ;;
  notify_all.

Fixpoint mark_joined (k : nat) (ts : list std_thread) : list std_thread :=
  match ts, k with
  | [], _ => []
  | t :: ts', 0 => mk_thread (thread_index t) (thread_main t) false :: ts'
  | t :: ts', S k' => t :: mark_joined k' ts'
  end.

(** [t.join()] on the [k]-th handle: on a handle that is not joinable it
    throws [std::system_error]; on a joinable one it returns once the thread
    has ended, and the handle stops being joinable. *)
Definition std_thread_join (k : nat) : call unit :=
  ts <- gets (@m_threads W) ;;
  match nth_error ts k with
  | Some t =>
      if joinable t then
        modify (on_instance (set_m_threads (mark_joined k ts))) ;;
        modify (log (thread_joined k))
      else throw (std_system_error "Invalid argument")
  | None => throw (std_system_error "No such process")
  end.

(** [t.joinable()] on the [k]-th handle. *)
Definition std_thread_joinable (k : nat) : call bool :=
  ts <- gets (@m_threads W) ;;
  ret (match nth_error ts k with Some t => joinable t | None => false end).

(** [join] as one caller runs it, with no other thread in the loop; the
    loop holds no lock, and the section on the loop of [join] takes two
    callers through it statement by statement. *)
Definition join : call unit :=
  perform calling_thread wait_until_stopped ;;
  n <- gets (fun ft => List.length (m_threads ft)) ;;
  for_range 0 n
    (fun k => j <- std_thread_joinable k ;;
              if j then std_thread_join k else ret tt).

End Pool.

Arguments Returns {W A} a p.
Arguments Throws {W A} e p.
Arguments Blocks {W A} p.
Arguments Suspends {W A} p k.

(** The process a call leaves behind, however it ended. *)
Definition state_after {W A} (o : outcome (W:=W) A) : process W :=
  match o with
  | Returns _ p => p
  | Throws _ p => p
  | Blocks p => p
  | Suspends p _ => p
  end.


(** Whether an exception left the call. *)
Definition threw {W A} (o : outcome (W:=W) A) : bool :=
  match o with
  | Throws _ _ => true
  | _ => false
  end.

(** The [k]-th thread of [m_threads] runs the function it was started with,
    statement after statement as [perform] has them, until the function ends
    or the thread is parked. *)
Definition thread_run {W} (k : nat) : call (W:=W) unit :=
  ts <- gets (@m_threads W) ;;
  match nth_error ts k with
  | Some t =>
      for_each (thread_main t) (perform (spawned_thread (thread_index t)))
  | None => ret tt
  end.

(** ** The dispatch fiber *)

(** What one [task_channel.pop(task)] of the fiber comes back with. *)
Inductive pop_result (W : Type) :=
| popped (task : task_type W)
| popped_closed.

Arguments popped {W} task.
Arguments popped_closed {W}.

(** How far the fiber function got: it is suspended in [pop], it returned
    after the loop, or an exception left it (boost.fiber has no handler
    around a fiber function, the process ends in [std::terminate]). *)
Inductive fiber_state := fiber_suspended | fiber_returned | fiber_escaped.

Record fiber_run (W : Type) := mk_fiber_run {
  fiber_exit : fiber_state;
  memory : W;
  executed : nat
}.

Arguments mk_fiber_run {W} fiber_exit memory executed.
Arguments fiber_exit {W} f.
Arguments memory {W} f.
Arguments executed {W} f.

Definition one_more {W} (r : fiber_run W) : fiber_run W :=
  mk_fiber_run (fiber_exit r) (memory r) (S (executed r)).

(** The body of [worker_fiber]:
    [while (closed != task_channel.pop(task)) task();]
    run against the results its calls of [pop] come back with. *)
Fixpoint worker_fiber {W} (pops : list (pop_result W)) (w : W) : fiber_run W :=
  match pops with
  | [] => mk_fiber_run fiber_suspended w 0
  | popped_closed :: _ => mk_fiber_run fiber_returned w 0
  | popped task :: rest =>
      match task w with
      | task_returns w' => one_more (worker_fiber rest w')
      | task_throws w' => mk_fiber_run fiber_escaped w' 1
      end
  end.

(** The tasks delivered before the first [closed]. *)
Fixpoint delivered {W} (pops : list (pop_result W)) : list (task_type W) :=
  match pops with
  | popped task :: rest => task :: delivered rest
  | _ => []
  end.

(** ** Sequences of calls on the singleton *)

Inductive member_call (W : Type) :=
| call_init (count : nat) (use_this_thread suspend_worker_thread : bool)
| call_post (task : task_type W)
| call_notify_stop
| call_join.

Arguments call_init {W} count use_this_thread suspend_worker_thread.
Arguments call_post {W} task.
Arguments call_notify_stop {W}.
Arguments call_join {W}.

Definition is_notify_stop {W} (c : member_call W) : bool :=
  match c with call_notify_stop => true | _ => false end.

Section Calls.
Context {W : Type}.
Variable fiber_scheduling_algorithm : algorithm.

Definition run_call (c : member_call W) : call (W:=W) unit :=
  match c with
  | call_init count use_this_thread suspend_worker_thread =>
      init fiber_scheduling_algorithm count use_this_thread
           suspend_worker_thread
  | call_post task => post task
  | call_notify_stop => notify_stop
  | call_join => join
  end.

Fixpoint run_calls (cs : list (member_call W)) (p : process W) : process W :=
  match cs with
  | [] => p
  | c :: cs' => run_calls cs' (state_after (run_call c p))
  end.

(** How often [running] goes from false to true, and from true to false,
    while the calls are made. *)
Fixpoint rises (cs : list (member_call W)) (p : process W) : nat :=
  match cs with
  | [] => 0
  | c :: cs' =>
      let p' := state_after (run_call c p) in
      (if negb (running (instance p)) && running (instance p') then 1 else 0)
      + rises cs' p'
  end.

Fixpoint falls (cs : list (member_call W)) (p : process W) : nat :=
  match cs with
  | [] => 0
  | c :: cs' =>
      let p' := state_after (run_call c p) in
      (if running (instance p) && negb (running (instance p')) then 1 else 0)
      + falls cs' p'
  end.

End Calls.

(** ** Start-up as the threads run it

    [init] above records what the calling thread does and which functions
    the new threads were started with.  The threads run them concurrently;
    this section gives the interleavings, with the two things that order
    them: the barrier, and the end of [init].  The barrier [b] and the
    closure [install_task_post_fiber] are locals of [init]; the thread
    lambda captures both by reference ([&b], [&install_task_post_fiber]),
    so a spawned thread that uses either after [init] has returned uses
    an object that is no more. *)

(** A thread taking part in a start-up: what it has done, what it still has
    to do, and whether it is inside [b.wait()] (it has called and has not
    returned yet). *)
Record party := mk_party {
  party_ref : thread_ref;
  performed : list action;
  pending : list action;
  in_wait : bool
}.

(** [in_scope]: [init] has not returned, its locals exist.  [undefined]: a
    thread has used one of them after that; what the program does from
    there on is not defined, and the model says nothing more. *)
Record startup := mk_startup {
  barrier_id : nat;
  barrier : thread_barrier;
  arrivals : nat;
  members : list party;
  in_scope : bool;
  undefined : bool
}.

(** What a turn does for a thread: nothing (it is through, it waits at the
    barrier for the others, or it is parked on [m_cnd_stop], which holds it
    for as long as the pool is running), one step, or the use of a local of
    an [init] that has returned. *)
Inductive step_result :=
| stays
| moves (m : party) (arrived : nat)
| dangles.

Definition party_step (b size arrived : nat) (alive : bool) (m : party)
  : step_result :=
  match pending m with
  | [] => stays
  | barrier_wait b' :: rest =>
      if negb alive then dangles
      else if negb (b' =? b) then stays
      else if in_wait m then
        if size <=? arrived then
          moves (mk_party (party_ref m) (performed m ++ [barrier_wait b'])
                          rest false) arrived
        else stays
      else moves (mk_party (party_ref m) (performed m) (pending m) true)
                 (S arrived)
  | install_task_post_fiber :: rest =>
      if alive then
        moves (mk_party (party_ref m) (performed m ++ [install_task_post_fiber])
                        rest false) arrived
      else dangles
  | wait_until_stopped :: _ => stays
  | a :: rest =>
      moves (mk_party (party_ref m) (performed m ++ [a]) rest false) arrived
  end.

Fixpoint replace_nth {A} (k : nat) (x : A) (l : list A) : list A :=
  match l, k with
  | [], _ => []
  | _ :: l', 0 => x :: l'
  | y :: l', S k' => y :: replace_nth k' x l'
  end.

(** Whose turn it is: the thread at position [k], or the calling thread at
    the end of [init]. *)
Inductive turn := thread_turn (k : nat) | init_returns.

(** The calling thread has nothing left to do inside [init]; when it does
    not take part in the start-up that is so from the beginning. *)
Definition caller_done (ms : list party) : bool :=
  forallb (fun m => match party_ref m, pending m with
                    | calling_thread, _ :: _ => false
                    | _, _ => true
                    end) ms.

Definition startup_step (t : turn) (s : startup) : startup :=
  if undefined s then s
  else
    match t with
    | init_returns =>
        if caller_done (members s) then
          mk_startup (barrier_id s) (barrier s) (arrivals s) (members s)
                     false false
        else s
    | thread_turn k =>
        match nth_error (members s) k with
        | Some m =>
            match party_step (barrier_id s) (parties (barrier s)) (arrivals s)
                             (in_scope s) m with
            | moves m' n =>
                mk_startup (barrier_id s) (barrier s) n
                           (replace_nth k m' (members s)) (in_scope s) false
            | dangles =>
                mk_startup (barrier_id s) (barrier s) (arrivals s) (members s)
                           (in_scope s) true
            | stays => s
            end
        | None => s
        end
    end.

Definition run_schedule (schedule : list turn) (s : startup) : startup :=
  fold_left (fun s t => startup_step t s) schedule s.

(** How many turns a schedule gives to the thread at position [k]. *)
Definition turns_of (k : nat) (schedule : list turn) : nat :=
  List.length
    (filter (fun t => match t with
                      | thread_turn k' => k' =? k
                      | init_returns => false
                      end) schedule).

(** What thread [who] did according to a trace. *)
Definition done_by (who : thread_ref) (es : list event) : list action :=
  flat_map (fun e => match e with
                     | did w a => if thread_ref_eqb w who then [a] else []
                     | _ => []
                     end) es.

Section Startup.
Context {W : Type}.

(** The handles a call added to [m_threads], and what the calling thread did
    during it: [p] is the process before the call, [p'] the one after. *)
Definition spawned_by (p p' : process W) : list std_thread :=
  skipn (List.length (m_threads (instance p))) (m_threads (instance p')).

Definition caller_actions (p p' : process W) : list action :=
  done_by calling_thread (skipn (List.length (trace p)) (trace p')).

(** The threads that take part in the start-up of one [init], each with what
    it runs: the threads spawned, and the calling thread when it was asked
    to take part. *)
Definition participants (use_this_thread : bool) (p p' : process W)
  : list (thread_ref * list action) :=
  map (fun t => (spawned_thread (thread_index t), thread_main t))
      (spawned_by p p')
  ++ (if use_this_thread then [(calling_thread, caller_actions p p')] else []).

(** The start-up of one [init] at the point where the threads have been
    spawned and none has moved: the barrier is the last one constructed, and
    [init] has yet to return. *)
Definition startup_of (use_this_thread : bool) (p p' : process W) : startup :=
  mk_startup (List.length (barriers p))
             (last (barriers p') (mk_barrier 0))
             0
             (map (fun pr => mk_party (fst pr) [] (snd pr) false)
                  (participants use_this_thread p p'))
             true false.

End Startup.

Definition is_fiber_spawn (a : action) : bool :=
  match a with install_task_post_fiber => true | _ => false end.

(** ** Reading a trace *)

(** The handles [join] was called on, by position, oldest first. *)
Definition joins_in (es : list event) : list nat :=
  flat_map (fun e => match e with thread_joined k => [k] | _ => [] end) es.

(** The positions, counted from [lo], of the handles that are joinable. *)
Fixpoint joinable_positions (lo : nat) (ts : list std_thread) : list nat :=
  match ts with
  | [] => []
  | t :: ts' =>
      (if joinable t then [lo] else []) ++ joinable_positions (S lo) ts'
  end.

(** A handle after its thread has been joined. *)
Definition joined (t : std_thread) : std_thread :=
  mk_thread (thread_index t) (thread_main t) false.

(** The memory after the tasks have run one after the other, if each of
    them returned. *)
Fixpoint run_all {W} (ts : list (task_type W)) (w : W) : option W :=
  match ts with
  | [] => Some w
  | t :: ts' =>
      match t w with
      | task_returns w' => run_all ts' w'
      | task_throws _ => None
      end
  end.

(** ** Reading a start-up *)

Definition is_barrier_wait (a : action) : bool :=
  match a with barrier_wait _ => true | _ => false end.

(** The thread has returned from [b.wait()]. *)
Definition passed (m : party) : bool := existsb is_barrier_wait (performed m).

(** The thread has called [b.wait()]. *)
Definition arrived (m : party) : bool := in_wait m || passed m.

Definition has_fiber (m : party) : bool :=
  existsb is_fiber_spawn (performed m).

(** The three steps every participant goes through. *)
Definition startup_steps (a : algorithm) (suspend : bool) (b : nat)
  : list action :=
  [install_algorithm a suspend; barrier_wait b; install_task_post_fiber].

(** ** Closed forms

    What the loops of [init] and [join] come to; the lemmas below show that
    the member functions compute exactly these. *)

Section ClosedForms.
Context {W : Type}.
Implicit Types (p : process W).

(** The pool once [init] has passed both checks: the flag is set and the
    count recorded. *)
Definition marked_running (count : nat) p : process W :=
  on_instance (set_fiber_thread_count count) (on_instance (set_running true) p).

(** The handles the loop of [init] appends, for the indices from [lo] up to
    [count], with [b] the barrier their lambdas captured. *)
Definition new_threads (a : algorithm) (b lo count : nat) (suspend : bool)
  : list std_thread :=
  map (fun i => mk_thread i (thread_lambda a b i suspend) true)
      (seq lo (count - lo)).

(** One iteration of the loop of [join], on the [k]-th handle. *)
Definition join_one (k : nat) p : process W :=
  match nth_error (m_threads (instance p)) k with
  | Some t =>
      if joinable t then
        log (thread_joined k)
            (on_instance
               (set_m_threads (mark_joined k (m_threads (instance p)))) p)
      else p
  | None => p
  end.

(** [len] iterations, from the [lo]-th handle on. *)
Fixpoint join_range (lo len : nat) p : process W :=
  match len with
  | 0 => p
  | S len' => join_range (S lo) len' (join_one lo p)
  end.

End ClosedForms.

(** ** Concrete pools and tasks *)

(** Two tasks over a counter: one increments it, one raises. *)
Definition add1 : task_type nat := fun w => task_returns (S w).
Definition fault : task_type nat := fun w => task_throws w.

(** The pool after [init(3, true, true)] and after
    [init(2); notify_stop()]. *)
Definition started_pool : process nat :=
  state_after (init shared_work 3 true true (process0 nat)).

Definition stopped_pool : process nat :=
  run_calls shared_work [call_init 2 true true; call_notify_stop]
            (process0 nat).




(** The start-up of [init(2, true, true)] and of [init(2, false, true)] on a
    fresh pool. *)
Definition startup_with_caller : startup :=
  startup_of true (process0 nat)
    (state_after (init shared_work 2 true true (process0 nat))).

Definition startup_without_caller : startup :=
  startup_of false (process0 nat)
    (state_after (init shared_work 2 false true (process0 nat))).

(** ** Calls and threads in any order *)

(** What happens in the process: some thread calls a member function, or
    the thread behind the [k]-th handle gets to run its function. *)
Inductive pool_event (W : Type) :=
| by_caller (c : member_call W)
| by_thread (k : nat).

Arguments by_caller {W} c.
Arguments by_thread {W} k.

Definition run_event {W} (a : algorithm) (e : pool_event W)
  : call (W:=W) unit :=
  match e with
  | by_caller c => run_call a c
  | by_thread k => thread_run k
  end.

Fixpoint run_events {W} (a : algorithm) (es : list (pool_event W))
    (p : process W) : process W :=
  match es with
  | [] => p
  | e :: es' => run_events a es' (state_after (run_event a e p))
  end.

(** The name a thread gives itself in the first statement of its function. *)
Definition thread_name (t : std_thread) : option string :=
  match thread_main t with
  | this_thread_name_set name :: _ => Some name
  | _ => None
  end.

Definition is_popped_closed {W} (r : pop_result W) : bool :=
  match r with popped_closed => true | popped _ => false end.

(** What the statements of a thread function leave alone: they change
    neither the flag, the channel, the handles nor the recorded count, they
    join nothing, and they add to [m_cnd_stop] only while the pool is
    running. *)
Definition thread_frame {W} (p q : process W) : Prop :=
  running (instance q) = running (instance p) /\
  task_channel (instance q) = task_channel (instance p) /\
  m_threads (instance q) = m_threads (instance p) /\
  fiber_thread_count (instance q) = fiber_thread_count (instance p) /\
  joins_in (trace q) = joins_in (trace p) /\
  (running (instance p) = false ->
   m_cnd_stop (instance q) = m_cnd_stop (instance p)).

(** Nobody is parked on a pool that is not running, no handle has been
    joined twice, and every handle that has been joined is not joinable. *)
Definition pool_inv {W} (p : process W) : Prop :=
  (running (instance p) = false -> m_cnd_stop (instance p) = []) /\
  NoDup (joins_in (trace p)) /\
  Forall (fun k => exists t, nth_error (m_threads (instance p)) k = Some t /\
                             joinable t = false)
         (joins_in (trace p)).

(** ** Two callers in the loop of [join]

    The loop [for (std::thread &t : m_threads) if (t.joinable()) t.join();]
    holds no lock, so two threads that are in it at the same time take
    turns statement by statement. *)

(** Where a caller is in the loop: at the handle in position [at_handle],
    either about to ask [t.joinable()], or, having been told [true], about
    to call [t.join()]. *)
Record joiner := mk_joiner {
  at_handle : nat;
  found_joinable : bool
}.

Section Joiners.
Context {W : Type}.

(** One statement of the loop; [None] when the loop is over. *)
Definition joiner_step (j : joiner) : call (W:=W) (option joiner) :=
  n <- gets (fun ft => List.length (m_threads ft)) ;;
  if n <=? at_handle j then ret None
  else if found_joinable j then
    std_thread_join (at_handle j) ;;
    ret (Some (mk_joiner (S (at_handle j)) false))
  else
    b <- std_thread_joinable (at_handle j) ;;
    ret (Some (if b then mk_joiner (at_handle j) true
               else mk_joiner (S (at_handle j)) false)).

(** One caller runs the loop on its own, for at most [fuel] statements. *)
Fixpoint joiner_alone (fuel : nat) (j : joiner) : call (W:=W) unit :=
  match fuel with
  | 0 => ret tt
  | S fuel' =>
      next <- joiner_step j ;;
      match next with
      | Some j' => joiner_alone fuel' j'
      | None => ret tt
      end
  end.

(** Two callers take turns: [true] lets the first one make a step, [false]
    the second; a caller that has left the loop makes none. *)
Fixpoint joiners (schedule : list bool) (a b : option joiner)
  : call (W:=W) (option joiner * option joiner) :=
  match schedule with
  | [] => ret (a, b)
  | first :: schedule' =>
      match (if first then a else b) with
      | Some j =>
          next <- joiner_step j ;;
          if first then joiners schedule' next b
          else joiners schedule' a next
      | None => joiners schedule' a b
      end
  end.

End Joiners.


(** * Properties *)

Section Facts.
Context {W : Type}.
Variable alg : algorithm.
Implicit Types (p : process W) (ft : FiberThreads W).

Lemma on_instance_same p :
  on_instance (set_m_threads (m_threads (instance p))) p = p.
Proof. destruct p as [[r n ws ts ch] bs ss fs tr]. reflexivity. Qed.

Lemma bind_unfold {A B} (c : call (W:=W) A) (k : A -> call B) p :
  bind c k p = call_bind c k p.
Proof. reflexivity. Qed.

Ltac run_call :=
  cbv beta iota delta
      [bind ret Monad_call call_bind gets modify throw block perform
       wait_not_running new_thread_barrier notify_all task_channel_push];
  cbn [instance running fiber_thread_count m_cnd_stop m_threads task_channel
       barriers schedulers fibers trace on_instance set_running
       set_fiber_thread_count set_m_cnd_stop set_m_threads set_task_channel
       add_barrier add_scheduler add_fiber log negb andb orb outcome_bind].

Lemma push_back_run (t : std_thread) p :
  m_threads_push_back t p
  = Returns tt (on_instance (set_m_threads (m_threads (instance p) ++ [t])) p).
Proof. reflexivity. Qed.

(** The loop of [init] appends one handle per index, in order. *)
Lemma for_each_push_back (f : nat -> std_thread) (l : list nat) p :
  for_each l (fun i => m_threads_push_back (f i)) p
  = Returns tt
      (on_instance (set_m_threads (m_threads (instance p) ++ map f l)) p).
Proof.
  revert p. induction l as [|i l IH]; intro p.
  - simpl. rewrite app_nil_r, on_instance_same. reflexivity.
  - cbn [for_each]. rewrite bind_unfold. unfold call_bind.
    rewrite push_back_run. cbn [outcome_bind]. rewrite IH. simpl.
    rewrite <- app_assoc. reflexivity.
Qed.

(** [init], path by path. *)
Lemma init_rejected count suspend p :
  count < 1 -> init alg count false suspend p = Returns tt p.
Proof.
  intro H. unfold init. apply Nat.ltb_lt in H. rewrite H. reflexivity.
Qed.

Lemma init_running count use suspend p :
  running (instance p) = true -> init alg count use suspend p = Returns tt p.
Proof.
  intro H. unfold init. destruct (negb use && (count <? 1)); [reflexivity|].
  run_call. rewrite H. reflexivity.
Qed.

Lemma init_single count suspend p :
  running (instance p) = false -> count < 2 ->
  init alg count true suspend p
  = Returns tt
      (log (did calling_thread install_task_post_fiber)
        (add_fiber calling_thread
          (log (did calling_thread (install_algorithm round_robin suspend))
            (add_scheduler calling_thread (use_default round_robin)
              (marked_running count p))))).
Proof.
  intros H Hc. unfold init. run_call. rewrite H.
  apply Nat.ltb_lt in Hc. rewrite Hc. reflexivity.
Qed.

Lemma init_multi count (use : bool) suspend p :
  running (instance p) = false ->
  (if use then 2 else 1) <= count ->
  init alg count use suspend p
  = let b := List.length (barriers p) in
    let spawned : process W :=
      on_instance
        (set_m_threads
           (m_threads (instance p)
            ++ new_threads alg b (if use then 1 else 0) count suspend))
        (add_barrier (mk_barrier count) (marked_running count p)) in
    Returns tt
      (if use then
         log (did calling_thread install_task_post_fiber)
          (add_fiber calling_thread
            (log (did calling_thread (barrier_wait b))
              (log (did calling_thread (install_algorithm alg suspend))
                (add_scheduler calling_thread
                   (install_fiber_scheduling_algorithm alg count suspend)
                   spawned))))
       else spawned).
Proof.
  intros H Hc. unfold init.
  assert (E1 : negb use && (count <? 1) = false).
  { destruct use; [reflexivity|]. simpl. apply Nat.ltb_ge. exact Hc. }
  rewrite E1.
  assert (E2 : use && (count <? 2) = false).
  { destruct use; [|reflexivity]. simpl. apply Nat.ltb_ge. exact Hc. }
  run_call. rewrite H, E2. unfold for_range.
  rewrite for_each_push_back. destruct use; reflexivity.
Qed.

Lemma skipn_all_app {A} (l l' : list A) : skipn (List.length l) (l ++ l') = l'.
Proof. induction l as [|x l IH]; [reflexivity | exact IH]. Qed.

Lemma spawned_by_app p q (l : list std_thread) :
  m_threads (instance q) = m_threads (instance p) ++ l -> spawned_by p q = l.
Proof. intro H. unfold spawned_by. rewrite H. apply skipn_all_app. Qed.

Lemma spawned_by_nil p q :
  m_threads (instance q) = m_threads (instance p) -> spawned_by p q = [].
Proof. intro H. apply spawned_by_app. rewrite app_nil_r. exact H. Qed.

(** C8: while the pool is running, [init] returns at once without an error
    and leaves the whole process as it was; in particular
    [fiber_thread_count] keeps the value recorded before and [m_threads] is
    not extended. *)
Theorem init_while_running_is_noop count use suspend p :
  running (instance p) = true ->
  let o := init alg count use suspend p in
  o = Returns tt p /\
  threw o = false /\
  fiber_thread_count (instance (state_after o))
  = fiber_thread_count (instance p) /\
  m_threads (instance (state_after o)) = m_threads (instance p) /\
  spawned_by p (state_after o) = [].
Proof.
  intros H o. subst o. rewrite (init_running count use suspend p H).
  cbn [state_after threw]. repeat split.
  apply spawned_by_nil. reflexivity.
Qed.

(** C3, as the code has it: [init] with [use_this_thread] false and a count
    of 0 returns to its caller normally, no error is reported, and the
    process is left exactly as it was: [running], [m_threads] and
    [fiber_thread_count] keep their values. *)
Theorem init_zero_without_caller_returns_silently suspend p :
  let o := init alg 0 false suspend p in
  o = Returns tt p /\
  threw o = false /\
  running (instance (state_after o)) = running (instance p) /\
  fiber_thread_count (instance (state_after o))
  = fiber_thread_count (instance p) /\
  m_threads (instance (state_after o)) = m_threads (instance p).
Proof.
  intro o. subst o. rewrite init_rejected by lia. cbn. repeat split.
Qed.

Lemma post_run (task : task_type W) p :
  post task p
  = if is_closed (task_channel (instance p)) then Returns tt p
    else
      Suspends
        (on_instance
           (set_task_channel
              (mk_channel false
                 (handed (task_channel (instance p)) ++ [task]))) p)
        (fun q => Returns tt q).
Proof.
  unfold post, task_channel_push. rewrite bind_unfold. unfold call_bind.
  destruct (is_closed (task_channel (instance p))); reflexivity.
Qed.

(** The consumer's side of a [post] on an open channel on which nothing
    else is on offer: the next [pop] takes that very task and leaves the
    channel as it was before the [post]. *)
Lemma post_then_take (task : task_type W) p :
  is_closed (task_channel (instance p)) = false ->
  handed (task_channel (instance p)) = [] ->
  channel_take (task_channel (instance (state_after (post task p))))
  = Some (task, task_channel (instance p)).
Proof.
  intros C H. rewrite post_run, C. cbn. unfold channel_take. cbn.
  rewrite H. cbn.
  destruct (task_channel (instance p)) as [c h]; cbn in *; subst; reflexivity.
Qed.


(** What a successful [init] leaves behind. *)
Lemma init_started count (use : bool) suspend p :
  running (instance p) = false ->
  use = true \/ 1 <= count ->
  exists p',
    init alg count use suspend p = Returns tt p' /\
    running (instance p') = true /\
    fiber_thread_count (instance p') = count /\
    m_threads (instance p') = m_threads (instance p) ++ spawned_by p p' /\
    spawned_by p p'
    = new_threads alg (List.length (barriers p)) (if use then 1 else 0) count
        suspend.
Proof.
  intros Hr Hv.
  destruct (Nat.ltb_spec count (if use then 2 else 1)) as [Hlt|Hge].
  - (* the calling thread alone *)
    assert (use = true) as -> by (destruct use; [reflexivity | lia]).
    rewrite (init_single count suspend p Hr Hlt). eexists. split; [reflexivity|].
    rewrite spawned_by_nil by reflexivity. unfold new_threads.
    replace (count - 1) with 0 by lia. cbn. rewrite app_nil_r.
    repeat split.
  - rewrite (init_multi count use suspend p Hr Hge). cbv zeta.
    eexists. split; [reflexivity|].
    match goal with |- running (instance ?q) = _ /\ _ =>
      assert (Hq : m_threads (instance q)
                   = m_threads (instance p)
                     ++ new_threads alg (List.length (barriers p))
                          (if use then 1 else 0) count suspend)
        by (destruct use; reflexivity);
      rewrite (spawned_by_app p q _ Hq), Hq
    end.
    repeat split; destruct use; reflexivity.
Qed.

Lemma new_threads_length b lo count suspend :
  List.length (new_threads alg b lo count suspend) = count - lo.
Proof. unfold new_threads. rewrite length_map, length_seq. reflexivity. Qed.

(** C5: an [init] that passes the parameter check on a pool that is not
    running sets [running], records the count in [fiber_thread_count], and
    appends to [m_threads] exactly [count - (use_this_thread ? 1 : 0)] new
    thread handles, one per loop index, each owning a started thread; with a
    count of 0 and the calling thread taking part, that is none. *)
Theorem init_starts_the_pool count (use : bool) suspend p :
  running (instance p) = false ->
  use = true \/ 1 <= count ->
  exists p',
    init alg count use suspend p = Returns tt p' /\
    running (instance p') = true /\
    fiber_thread_count (instance p') = count /\
    m_threads (instance p') = m_threads (instance p) ++ spawned_by p p' /\
    List.length (spawned_by p p') = count - (if use then 1 else 0) /\
    map thread_index (spawned_by p p')
    = seq (if use then 1 else 0) (count - (if use then 1 else 0)) /\
    Forall (fun t => joinable t = true) (spawned_by p p') /\
    (count = 0 -> spawned_by p p' = []).
Proof.
  intros Hr Hv.
  destruct (init_started count use suspend p Hr Hv)
    as (p' & E & R & C & M & S).
  exists p'. rewrite S at 2 3 4 5. rewrite new_threads_length.
  repeat split; try assumption.
  - unfold new_threads. rewrite map_map. cbn. apply map_id.
  - unfold new_threads. apply Forall_map, Forall_forall. reflexivity.
  - intros ->. reflexivity.
Qed.

(** C7: with the calling thread taking part and a count below 2, an [init]
    on a pool that is not running constructs no barrier and never waits on
    one, installs [round_robin] (and not the pool's own algorithm) on the
    calling thread only, spawns the dispatch fiber there, starts no thread,
    and returns. *)
Theorem init_single_thread_case count suspend p :
  running (instance p) = false ->
  count < 2 ->
  exists p',
    init alg count true suspend p = Returns tt p' /\
    running (instance p') = true /\
    barriers p' = barriers p /\
    schedulers p' = schedulers p ++ [(calling_thread, use_default round_robin)] /\
    fibers p' = fibers p ++ [calling_thread] /\
    m_threads (instance p') = m_threads (instance p) /\
    trace p'
    = trace p ++ [did calling_thread (install_algorithm round_robin suspend);
                  did calling_thread install_task_post_fiber].
Proof.
  intros Hr Hc. rewrite (init_single count suspend p Hr Hc).
  eexists. split; [reflexivity|]. cbn. rewrite <- app_assoc.
  repeat split.
Qed.

(** C9: [notify_stop] clears [running] and wakes every thread suspended on
    [m_cnd_stop], each of which then finds its predicate true and leaves the
    wait; nothing else changes: the task channel (open or closed, and the
    tasks in it), [m_threads], [fiber_thread_count], the schedulers and the
    dispatch fibers are as before, and the only event is the notification. *)
Theorem notify_stop_only_clears_running_and_wakes p :
  exists p',
    notify_stop p = Returns tt p' /\
    running (instance p') = false /\
    m_cnd_stop (instance p') = [] /\
    trace p' = trace p ++ [notified_all (m_cnd_stop (instance p))] /\
    (forall who, wait_not_running who p' = Returns tt p') /\
    task_channel (instance p') = task_channel (instance p) /\
    m_threads (instance p') = m_threads (instance p) /\
    fiber_thread_count (instance p') = fiber_thread_count (instance p) /\
    barriers p' = barriers p /\
    schedulers p' = schedulers p /\
    fibers p' = fibers p.
Proof.
  eexists. split; [reflexivity|]. cbn. repeat split.
Qed.

(** *** [join] *)

Lemma join_body_run k p :
  (j <- std_thread_joinable k ;; if j then std_thread_join k else ret tt) p
  = Returns tt (join_one k p).
Proof.
  unfold std_thread_joinable, std_thread_join, join_one. run_call.
  destruct (nth_error (m_threads (instance p)) k) as [t|] eqn:E;
    [destruct (joinable t) eqn:J|]; cbn; rewrite ?E, ?J; reflexivity.
Qed.

Lemma for_each_join lo len p :
  for_each (seq lo len)
    (fun k => j <- std_thread_joinable k ;;
              if j then std_thread_join k else ret tt) p
  = Returns tt (join_range lo len p).
Proof.
  revert lo p. induction len as [|len IH]; intros lo p; [reflexivity|].
  cbn [seq for_each]. rewrite bind_unfold. unfold call_bind.
  rewrite join_body_run. cbn [outcome_bind]. apply IH.
Qed.

Lemma join_run p :
  running (instance p) = false ->
  join p
  = Returns tt
      (join_range 0 (List.length (m_threads (instance p)))
         (log (did calling_thread wait_until_stopped) p)).
Proof.
  intro H. unfold join. run_call. rewrite H. run_call.
  unfold for_range. rewrite Nat.sub_0_r. apply for_each_join.
Qed.

Lemma mark_joined_middle (pre suf : list std_thread) t :
  mark_joined (List.length pre) (pre ++ t :: suf) = pre ++ joined t :: suf.
Proof.
  induction pre as [|x pre IH]; [reflexivity|]. cbn. rewrite IH. reflexivity.
Qed.

Lemma joined_not_joinable t : joinable t = false -> joined t = t.
Proof. destruct t as [i m j]. cbn. intros ->. reflexivity. Qed.

Lemma join_one_middle (pre suf : list std_thread) t p :
  m_threads (instance p) = pre ++ t :: suf ->
  let q := join_one (List.length pre) p in
  m_threads (instance q) = (pre ++ [joined t]) ++ suf /\
  joins_in (trace q)
  = joins_in (trace p) ++ (if joinable t then [List.length pre] else []) /\
  running (instance q) = running (instance p).
Proof.
  intros H q. subst q. unfold join_one. rewrite H.
  rewrite nth_error_app2, Nat.sub_diag by lia. cbn [nth_error].
  rewrite <- app_assoc. cbn [app].
  destruct (joinable t) eqn:J.
  - cbn. rewrite mark_joined_middle. unfold joins_in.
    rewrite flat_map_app. repeat split.
  - rewrite (joined_not_joinable t J), app_nil_r. repeat split. exact H.
Qed.

Lemma join_range_suffix (suf pre : list std_thread) p :
  m_threads (instance p) = pre ++ suf ->
  let q := join_range (List.length pre) (List.length suf) p in
  m_threads (instance q) = pre ++ map joined suf /\
  joins_in (trace q)
  = joins_in (trace p) ++ joinable_positions (List.length pre) suf /\
  running (instance q) = running (instance p).
Proof.
  revert pre p. induction suf as [|t suf IH]; intros pre p H q; subst q.
  - cbn. rewrite !app_nil_r in *. repeat split. exact H.
  - cbn [List.length join_range map joinable_positions].
    destruct (join_one_middle pre suf t p H) as (Hm & Hj & Hr).
    specialize (IH (pre ++ [joined t]) _ Hm).
    rewrite length_app, Nat.add_1_r in IH. cbn [List.length] in IH.
    destruct IH as (Hm' & Hj' & Hr').
    rewrite Hm', Hj', Hr', Hj, Hr, <- !app_assoc. repeat split.
Qed.



Lemma join_stopped p :
  running (instance p) = false ->
  exists p',
    join p = Returns tt p' /\
    m_threads (instance p') = map joined (m_threads (instance p)) /\
    joins_in (trace p')
    = joins_in (trace p) ++ joinable_positions 0 (m_threads (instance p)) /\
    running (instance p') = false.
Proof.
  intro H. rewrite (join_run p H). eexists. split; [reflexivity|].
  destruct (join_range_suffix (m_threads (instance p)) []
              (log (did calling_thread wait_until_stopped) p) eq_refl)
    as (Hm & Hj & Hr).
  cbn [List.length app] in *. rewrite Hm, Hj, Hr.
  split; [reflexivity|]. split; [|exact H].
  cbn. unfold joins_in. rewrite flat_map_app. cbn. rewrite app_nil_r.
  reflexivity.
Qed.


(** *** The dispatch fiber *)

Lemma worker_fiber_after (pre : list (task_type W)) rest (w w1 : W) :
  run_all pre w = Some w1 ->
  worker_fiber (map popped pre ++ rest) w
  = mk_fiber_run (fiber_exit (worker_fiber rest w1))
                 (memory (worker_fiber rest w1))
                 (List.length pre + executed (worker_fiber rest w1)).
Proof.
  revert w. induction pre as [|t pre IH]; intros w H.
  - cbn in H. injection H as ->. cbn. destruct (worker_fiber rest w1).
    reflexivity.
  - cbn in H |- *. destruct (t w) as [w'|w']; [|discriminate].
    rewrite (IH w' H). reflexivity.
Qed.

(** C4, as the code has it: the dispatch fiber runs the tasks it receives
    in order for as long as each of them returns.  A task that raises ends
    the loop: the exception leaves the fiber function and whatever is
    delivered after that task is not executed by this fiber.  When no task
    raises, the loop is left on the closed signal only, and until then the
    fiber stays suspended in [pop]. *)
Theorem worker_fiber_runs_until_fault_or_closed
    (pre : list (task_type W)) (w w1 : W) :
  run_all pre w = Some w1 ->
  (forall t w2 later,
      t w1 = task_throws w2 ->
      worker_fiber (map popped pre ++ popped t :: later) w
      = mk_fiber_run fiber_escaped w2 (S (List.length pre))) /\
  (forall later,
      worker_fiber (map popped pre ++ popped_closed :: later) w
      = mk_fiber_run fiber_returned w1 (List.length pre)) /\
  worker_fiber (map popped pre) w
  = mk_fiber_run fiber_suspended w1 (List.length pre).
Proof.
  intro H. repeat split.
  - intros t w2 later Ht. rewrite (worker_fiber_after pre _ w w1 H). cbn.
    rewrite Ht. cbn. rewrite Nat.add_1_r. reflexivity.
  - intro later. rewrite (worker_fiber_after pre _ w w1 H). cbn.
    rewrite Nat.add_0_r. reflexivity.
  - rewrite <- (app_nil_r (map popped pre)).
    rewrite (worker_fiber_after pre _ w w1 H). cbn.
    rewrite Nat.add_0_r. reflexivity.
Qed.

(** *** The run flag over a sequence of calls *)

Lemma join_range_running lo len p :
  running (instance (join_range lo len p)) = running (instance p).
Proof.
  revert lo p. induction len as [|len IH]; intros lo p; [reflexivity|].
  cbn [join_range]. rewrite IH. unfold join_one.
  destruct (nth_error (m_threads (instance p)) lo) as [t|]; [|reflexivity].
  destruct (joinable t); reflexivity.
Qed.

Lemma join_keeps_running p :
  running (instance (state_after (join p))) = running (instance p).
Proof.
  destruct (running (instance p)) eqn:H.
  - unfold join. run_call. rewrite H. cbn. exact H.
  - rewrite (join_run p H). cbn [state_after].
    rewrite join_range_running. exact H.
Qed.

Lemma init_sets_running count (use : bool) suspend p :
  running (instance (state_after (init alg count use suspend p)))
  = running (instance p) || use || (1 <=? count).
Proof.
  destruct (running (instance p)) eqn:Hr.
  - rewrite (init_running count use suspend p Hr). exact Hr.
  - destruct (Nat.ltb_spec count (if use then 2 else 1)) as [Hlt|Hge].
    + destruct use.
      * rewrite (init_single count suspend p Hr Hlt). reflexivity.
      * rewrite (init_rejected count suspend p Hlt). cbn [state_after].
        rewrite Hr. symmetry. apply Nat.leb_gt. exact Hlt.
    + rewrite (init_multi count use suspend p Hr Hge). cbv zeta.
      destruct use; [reflexivity|]. cbn [state_after orb].
      symmetry. apply Nat.leb_le. exact Hge.
Qed.

(** C1, as the code has it: [running] becomes true at every [init] that
    passes its parameter check while the pool is not running, the first one
    and any one made after a [notify_stop]; every [notify_stop] sets it to
    false; [post] and [join] leave it alone.  An [init] made after a stop is
    therefore not a no-op: when its parameter check passes it sets [running]
    again and starts [count - (use_this_thread ? 1 : 0)] new threads. *)
Theorem running_follows_init_and_notify_stop (c : member_call W) p :
  running (instance (state_after (run_call alg c p)))
  = match c with
    | call_init count use _ => running (instance p) || use || (1 <=? count)
    | call_notify_stop => false
    | _ => running (instance p)
    end
  /\
  forall count (use : bool) suspend,
    let stopped := state_after (notify_stop p) in
    let again := state_after (init alg count use suspend stopped) in
    running (instance again) = use || (1 <=? count) /\
    List.length (spawned_by stopped again) = count - (if use then 1 else 0).
Proof.
  split.
  - destruct c as [count use suspend|task| |]; cbn [run_call].
    + apply init_sets_running.
    + rewrite post_run.
      destruct (is_closed (task_channel (instance p))); reflexivity.
    + reflexivity.
    + apply join_keeps_running.
  - intros count use suspend stopped again. subst again.
    assert (Hr : running (instance stopped) = false) by reflexivity.
    split; [rewrite init_sets_running, Hr; reflexivity|].
    destruct use; [|destruct count as [|count]].
    + destruct (init_started count true suspend stopped Hr
                  (or_introl eq_refl)) as (p' & E & _ & _ & _ & L).
      rewrite E. cbn [state_after]. rewrite L. apply new_threads_length.
    + rewrite (init_rejected 0 suspend stopped) by lia. cbn [state_after].
      rewrite spawned_by_nil; reflexivity.
    + destruct (init_started (S count) false suspend stopped Hr)
        as (p' & E & _ & _ & _ & L); [right; lia|].
      rewrite E. cbn [state_after]. rewrite L. apply new_threads_length.
Qed.

(** *** Start-up *)

Lemma init_multi_view count (use : bool) suspend p :
  running (instance p) = false ->
  (if use then 2 else 1) <= count ->
  exists p',
    init alg count use suspend p = Returns tt p' /\
    m_threads (instance p')
    = m_threads (instance p)
      ++ new_threads alg (List.length (barriers p)) (if use then 1 else 0) count
           suspend /\
    barriers p' = barriers p ++ [mk_barrier count] /\
    trace p'
    = trace p
      ++ (if use then
            map (did calling_thread)
                [install_algorithm alg suspend;
                 barrier_wait (List.length (barriers p));
                 install_task_post_fiber]
          else []).
Proof.
  intros Hr Hc. rewrite (init_multi count use suspend p Hr Hc). cbv zeta.
  eexists. split; [reflexivity|].
  destruct use; cbn; rewrite <- ?app_assoc, ?app_nil_r; repeat split.
Qed.

(** Who takes part in the start-up of an [init] on the multi-thread path,
    and with which function: the spawned threads with their lambda, and the
    calling thread, when it takes part, with the three steps; the barrier is
    constructed for the count given to [init]. *)
Lemma participants_of_init count (use : bool) suspend p :
  running (instance p) = false ->
  (if use then 2 else 1) <= count ->
  exists p',
    init alg count use suspend p = Returns tt p' /\
    last (barriers p') (mk_barrier 0) = mk_barrier count /\
    participants use p p'
    = map (fun i => (spawned_thread i,
                     thread_lambda alg (List.length (barriers p)) i suspend))
          (seq (if use then 1 else 0) (count - (if use then 1 else 0)))
      ++ (if use
          then [(calling_thread,
                 startup_steps alg suspend (List.length (barriers p)))]
          else []).
Proof.
  intros Hr Hc.
  destruct (init_multi_view count use suspend p Hr Hc)
    as (p' & E & Hm & Hb & Ht).
  exists p'. split; [exact E|]. split; [rewrite Hb; apply last_last|].
  unfold participants, caller_actions.
  rewrite (spawned_by_app p p' _ Hm), Ht, skipn_all_app.
  unfold new_threads. rewrite map_map. cbn [thread_index thread_main].
  destruct use; reflexivity.
Qed.

End Facts.

(** * The loop of [join], statement by statement *)

Section JoinLoop.
Context {W : Type}.
Implicit Types (p : process W).

Ltac step_call :=
  cbv beta iota delta
      [bind ret Monad_call call_bind gets modify throw joiner_step
       std_thread_joinable std_thread_join];
  cbn [instance m_threads trace on_instance set_m_threads log outcome_bind
       at_handle found_joinable].

Lemma mark_joined_length k (ts : list std_thread) :
  List.length (mark_joined k ts) = List.length ts.
Proof.
  revert k. induction ts as [|t ts IH]; intros [|k]; cbn; auto.
Qed.

Lemma join_one_length k p :
  List.length (m_threads (instance (join_one k p)))
  = List.length (m_threads (instance p)).
Proof.
  unfold join_one.
  destruct (nth_error (m_threads (instance p)) k) as [t|];
    [destruct (joinable t)|]; cbn; auto using mark_joined_length.
Qed.

(** Past the last handle the loop is over. *)
Lemma joiner_step_end (j : joiner) p :
  List.length (m_threads (instance p)) <= at_handle j ->
  joiner_step j p = Returns None p.
Proof.
  intro H. step_call.
  destruct (Nat.leb_spec (List.length (m_threads (instance p))) (at_handle j));
    [reflexivity | lia].
Qed.

(** [t.joinable()] on a handle that is there. *)
Lemma joiner_step_ask lo t p :
  nth_error (m_threads (instance p)) lo = Some t ->
  joiner_step (mk_joiner lo false) p
  = Returns (Some (if joinable t then mk_joiner lo true
                   else mk_joiner (S lo) false)) p.
Proof.
  intro E. step_call.
  assert (L : lo < List.length (m_threads (instance p)))
    by (apply nth_error_Some; congruence).
  destruct (Nat.leb_spec (List.length (m_threads (instance p))) lo);
    [lia|]. rewrite E. reflexivity.
Qed.

(** [t.join()] on a handle that is still joinable. *)
Lemma joiner_step_join lo t p :
  nth_error (m_threads (instance p)) lo = Some t ->
  joinable t = true ->
  joiner_step (mk_joiner lo true) p
  = Returns (Some (mk_joiner (S lo) false)) (join_one lo p).
Proof.
  intros E J. step_call.
  assert (L : lo < List.length (m_threads (instance p)))
    by (apply nth_error_Some; congruence).
  destruct (Nat.leb_spec (List.length (m_threads (instance p))) lo);
    [lia|]. unfold join_one. rewrite E, J. reflexivity.
Qed.

(** [t.join()] on a handle that has been joined in the meantime. *)
Lemma joiner_step_join_twice lo t p :
  nth_error (m_threads (instance p)) lo = Some t ->
  joinable t = false ->
  joiner_step (mk_joiner lo true) p
  = Throws (std_system_error "Invalid argument") p.
Proof.
  intros E J. step_call.
  assert (L : lo < List.length (m_threads (instance p)))
    by (apply nth_error_Some; congruence).
  destruct (Nat.leb_spec (List.length (m_threads (instance p))) lo);
    [lia|]. rewrite E, J. reflexivity.
Qed.

(** A caller that is alone in the loop, given two statements per handle and
    one more to find the end, does what the loop of [join] does. *)
Lemma joiner_alone_run len :
  forall lo fuel p,
    lo + len = List.length (m_threads (instance p)) ->
    2 * len < fuel ->
    joiner_alone fuel (mk_joiner lo false) p
    = Returns tt (join_range lo len p).
Proof.
  induction len as [|len IH]; intros lo fuel p L F.
  - destruct fuel as [|fuel]; [lia|].
    cbn [joiner_alone join_range]. rewrite bind_unfold. unfold call_bind.
    rewrite joiner_step_end by (cbn; lia). reflexivity.
  - destruct fuel as [|[|fuel]]; try lia.
    assert (exists t, nth_error (m_threads (instance p)) lo = Some t)
      as (t & E).
    { destruct (nth_error (m_threads (instance p)) lo) as [t|] eqn:E;
        [eauto|]. apply nth_error_None in E. lia. }
    cbn [join_range].
    assert (L' : S lo + len
                 = List.length (m_threads (instance (join_one lo p))))
      by (rewrite join_one_length; lia).
    change (joiner_alone (S (S fuel)) (mk_joiner lo false) p)
      with (call_bind (joiner_step (mk_joiner lo false))
              (fun next => match next with
                           | Some j' => joiner_alone (S fuel) j'
                           | None => ret tt
                           end) p).
    unfold call_bind. rewrite (joiner_step_ask lo t p E).
    cbn [outcome_bind].
    destruct (joinable t) eqn:J.
    + change (joiner_alone (S fuel) (mk_joiner lo true) p)
        with (call_bind (joiner_step (mk_joiner lo true))
                (fun next => match next with
                             | Some j' => joiner_alone fuel j'
                             | None => ret tt
                             end) p).
      unfold call_bind. rewrite (joiner_step_join lo t p E J).
      cbn [outcome_bind]. apply IH; [exact L' | lia].
    + assert (Q : join_one lo p = p) by (unfold join_one; rewrite E, J; auto).
      rewrite Q in *. apply IH; [exact L' | lia].
Qed.

(** [join] on a stopped pool is one such caller, after the wait. *)
Lemma join_is_one_joiner p :
  running (instance p) = false ->
  join p
  = joiner_alone (S (2 * List.length (m_threads (instance p))))
      (mk_joiner 0 false) (log (did calling_thread wait_until_stopped) p).
Proof.
  intro H. rewrite (join_run p H).
  symmetry. apply joiner_alone_run; cbn; lia.
Qed.

Lemma nth_error_mark_joined k t (ts : list std_thread) :
  nth_error ts k = Some t -> nth_error (mark_joined k ts) k = Some (joined t).
Proof.
  revert k. induction ts as [|x ts IH]; intros [|k]; cbn; try discriminate.
  - intros [= ->]. reflexivity.
  - apply IH.
Qed.

(** Two callers in the loop at the same handle, which is joinable: each is
    told so, the first joins it, and the [t.join()] of the second is on a
    handle that is joinable no more. *)
Lemma second_joiner_throws lo t p :
  nth_error (m_threads (instance p)) lo = Some t ->
  joinable t = true ->
  joiners [true; false; true; false]
          (Some (mk_joiner lo false)) (Some (mk_joiner lo false)) p
  = Throws (std_system_error "Invalid argument") (join_one lo p).
Proof.
  intros E J.
  assert (E' : nth_error (m_threads (instance (join_one lo p))) lo
               = Some (joined t)).
  { unfold join_one. rewrite E, J. cbn. apply nth_error_mark_joined, E. }
  cbn [joiners]. rewrite !bind_unfold. unfold call_bind.
  rewrite (joiner_step_ask lo t p E), J. cbn [outcome_bind joiners].
  rewrite !bind_unfold. unfold call_bind.
  rewrite (joiner_step_ask lo t p E), J. cbn [outcome_bind joiners].
  rewrite !bind_unfold. unfold call_bind.
  rewrite (joiner_step_join lo t p E J). cbn [outcome_bind joiners].
  rewrite !bind_unfold. unfold call_bind.
  rewrite (joiner_step_join_twice lo (joined t) _ E' eq_refl).
  reflexivity.
Qed.

End JoinLoop.

(** * Start-up, turn by turn *)

Section StartupRuns.

Lemma run_schedule_app (sch sch' : list turn) (s : startup) :
  run_schedule (sch ++ sch') s = run_schedule sch' (run_schedule sch s).
Proof. apply fold_left_app. Qed.

Lemma turns_of_app k (sch sch' : list turn) :
  turns_of k (sch ++ sch') = turns_of k sch + turns_of k sch'.
Proof. unfold turns_of. rewrite filter_app, length_app. reflexivity. Qed.

Lemma replace_nth_length {A} k (x : A) (l : list A) :
  List.length (replace_nth k x l) = List.length l.
Proof.
  revert k. induction l as [|y l IH]; intros [|k]; cbn; auto.
Qed.

Lemma nth_error_replace_nth {A} k (x y : A) (l : list A) :
  nth_error l k = Some y -> nth_error (replace_nth k x l) k = Some x.
Proof.
  revert k. induction l as [|z l IH]; intros [|k]; cbn; try discriminate; auto.
Qed.

Lemma nth_error_replace_nth_other {A} k k' (x : A) (l : list A) :
  k <> k' -> nth_error (replace_nth k x l) k' = nth_error l k'.
Proof.
  revert k k'. induction l as [|z l IH]; intros [|k] [|k'] H; cbn; auto.
  contradiction.
Qed.

Lemma Forall_replace_nth {A} (P : A -> Prop) k (x : A) (l : list A) :
  Forall P l -> P x -> Forall P (replace_nth k x l).
Proof.
  intros H Hx. revert k.
  induction H as [|y l Hy Hl IH]; intros [|k]; cbn; constructor; auto.
Qed.

(** Once the locals of [init] are gone, a step a thread can still make is
    neither a call of [b.wait()], nor the return from it, nor the spawn of
    the dispatch fiber. *)
Lemma party_step_out_of_scope b size n (m m' : party) n' :
  party_step b size n false m = moves m' n' ->
  arrived m' = passed m /\ has_fiber m' = has_fiber m.
Proof.
  unfold party_step.
  destruct (pending m) as [|a rest]; [discriminate|].
  destruct a; cbn [negb]; try discriminate;
    intro H; injection H as <- _;
    unfold arrived, passed, has_fiber; cbn [performed in_wait orb];
    rewrite !existsb_app; cbn; rewrite !orb_false_r; auto.
Qed.

Lemma startup_step_out_of_scope (t : turn) (s : startup) :
  in_scope s = false ->
  Forall (fun m => arrived m = false /\ has_fiber m = false) (members s) ->
  in_scope (startup_step t s) = false /\
  Forall (fun m => arrived m = false /\ has_fiber m = false)
         (members (startup_step t s)).
Proof.
  intros Hs Hm. unfold startup_step.
  destruct (undefined s); [auto|].
  destruct t as [k|].
  - destruct (nth_error (members s) k) as [m|] eqn:E; [|auto].
    rewrite Hs.
    destruct (party_step (barrier_id s) (parties (barrier s)) (arrivals s)
                         false m) as [|m' n'|] eqn:P; cbn; auto.
    split; [reflexivity|].
    apply Forall_replace_nth; [exact Hm|].
    destruct (party_step_out_of_scope _ _ _ _ _ _ P) as [A F].
    rewrite Forall_forall in Hm.
    destruct (Hm m (nth_error_In _ _ E)) as [A0 F0].
    unfold arrived in A0. apply orb_false_iff in A0. destruct A0 as [_ A0].
    split; congruence.
  - destruct (caller_done (members s)); cbn; auto.
Qed.

Lemma run_schedule_out_of_scope (schedule : list turn) (s : startup) :
  in_scope s = false ->
  Forall (fun m => arrived m = false /\ has_fiber m = false) (members s) ->
  Forall (fun m => arrived m = false /\ has_fiber m = false)
         (members (run_schedule schedule s)).
Proof.
  revert s. induction schedule as [|t schedule IH]; intros s Hs Hm;
    [exact Hm|].
  destruct (startup_step_out_of_scope t s Hs Hm) as [Hs' Hm'].
  exact (IH _ Hs' Hm').
Qed.

Lemma undefined_is_final (schedule : list turn) (s : startup) :
  undefined s = true -> undefined (run_schedule schedule s) = true.
Proof.
  revert s. induction schedule as [|t schedule IH]; intros s H; [exact H|].
  cbn [run_schedule fold_left]. apply IH. unfold startup_step.
  rewrite H. exact H.
Qed.

End StartupRuns.

Section StartupOfInit.
Context {W : Type}.
Variable alg : algorithm.
Implicit Types (p : process W).

Lemma nth_error_seq_lt lo len k :
  k < len -> nth_error (seq lo len) k = Some (lo + k).
Proof.
  revert lo k. induction len as [|len IH]; intros lo [|k] H; try lia.
  - cbn. f_equal. lia.
  - cbn. rewrite IH by lia. f_equal. lia.
Qed.

(** The start-up of [init(count, false, suspend)]: the barrier is
    constructed for [count] parties, and the parties are the [count] threads
    spawned, each with its lambda before it. *)
Lemma startup_of_init_without_caller count suspend p :
  running (instance p) = false ->
  1 <= count ->
  startup_of false p (state_after (init alg count false suspend p))
  = mk_startup (List.length (barriers p)) (mk_barrier count) 0
      (map (fun i => mk_party (spawned_thread i) []
                       (thread_lambda alg (List.length (barriers p)) i suspend)
                       false)
           (seq 0 count))
      true false.
Proof.
  intros Hr Hc.
  destruct (participants_of_init alg count false suspend p Hr Hc)
    as (p' & E & Hb & Hp).
  rewrite E. cbn [state_after]. unfold startup_of.
  rewrite Hb, Hp, app_nil_r, map_map, Nat.sub_0_r. reflexivity.
Qed.

(** The same with the calling thread: [count - 1] threads are spawned, the
    calling thread is the last party and has the three steps before it. *)
Lemma startup_of_init_with_caller count suspend p :
  running (instance p) = false ->
  2 <= count ->
  startup_of true p (state_after (init alg count true suspend p))
  = mk_startup (List.length (barriers p)) (mk_barrier count) 0
      (map (fun i => mk_party (spawned_thread i) []
                       (thread_lambda alg (List.length (barriers p)) i suspend)
                       false)
           (seq 1 (count - 1))
       ++ [mk_party calling_thread []
             (startup_steps alg suspend (List.length (barriers p))) false])
      true false.
Proof.
  intros Hr Hc.
  destruct (participants_of_init alg count true suspend p Hr Hc)
    as (p' & E & Hb & Hp).
  rewrite E. cbn [state_after]. unfold startup_of.
  rewrite Hb, Hp, map_app, map_map. reflexivity.
Qed.

Lemma caller_done_spawned (f : nat -> list action) (l : list nat) :
  caller_done (map (fun i => mk_party (spawned_thread i) [] (f i) false) l)
  = true.
Proof. induction l as [|i l IH]; [reflexivity|exact IH]. Qed.

(** Where the thread at position [k] is after a schedule that began when
    [init] had returned: it has made one step per turn, two at most, or the
    behaviour is undefined. *)
Lemma spawned_thread_progress b suspend count (schedule : list turn) :
  let s :=
    run_schedule schedule
      (mk_startup b (mk_barrier count) 0
         (map (fun i => mk_party (spawned_thread i) []
                          (thread_lambda alg b i suspend) false)
              (seq 0 count))
         false false) in
  undefined s = true \/
  (in_scope s = false /\
   List.length (members s) = count /\
   forall k, k < count ->
     turns_of k schedule <= 2 /\
     exists m,
       nth_error (members s) k = Some m /\
       pending m = skipn (turns_of k schedule) (thread_lambda alg b k suspend)).
Proof.
  induction schedule as [|t schedule IH] using rev_ind; intro s; subst s.
  - right. split; [reflexivity|].
    cbn [run_schedule fold_left members]. split.
    { rewrite length_map, length_seq. reflexivity. }
    intros k Hk. split; [cbn; lia|].
    eexists. rewrite nth_error_map, (nth_error_seq_lt 0 count k Hk). cbn.
    split; reflexivity.
  - rewrite run_schedule_app. cbv zeta in IH.
    set (s := run_schedule schedule _) in *.
    cbn [run_schedule fold_left].
    destruct IH as [U|(Hs & Hl & Hm)].
    { left. unfold startup_step. rewrite U. exact U. }
    destruct (undefined s) eqn:U.
    { left. unfold startup_step. rewrite U. exact U. }
    assert (Other : forall k' k, k' <> k ->
              turns_of k (schedule ++ [thread_turn k']) = turns_of k schedule).
    { intros k' k N. rewrite turns_of_app. cbn [turns_of filter List.length].
      apply Nat.eqb_neq in N. rewrite N. cbn. lia. }
    assert (Same : forall k,
              turns_of k (schedule ++ [thread_turn k])
              = S (turns_of k schedule)).
    { intro k. rewrite turns_of_app. cbn [turns_of filter List.length].
      rewrite Nat.eqb_refl. cbn. lia. }
    destruct t as [k'|].
    + unfold startup_step. rewrite U, Hs.
      destruct (Nat.lt_ge_cases k' count) as [Hk'|Hk'].
      * destruct (Hm k' Hk') as (Ht & m & E & P). rewrite E.
        unfold party_step. rewrite P.
        destruct (turns_of k' schedule) as [|[|[|n]]] eqn:T; try lia;
          cbn [skipn thread_lambda negb]; [right|right|left; reflexivity];
          (cbn [in_scope members]; split; [reflexivity|];
           split; [rewrite replace_nth_length; exact Hl|];
           intros k Hk; destruct (Nat.eq_dec k' k) as [<-|N];
           [ rewrite Same, T; split; [lia|];
             eexists; split; [eapply nth_error_replace_nth, E|reflexivity]
           | rewrite (Other k' k N);
             destruct (Hm k Hk) as (Ht' & m0 & E0 & P0);
             split; [exact Ht'|]; exists m0;
             rewrite nth_error_replace_nth_other by exact N;
             split; assumption ]).
      * assert (E' : nth_error (members s) k' = None)
          by (apply nth_error_None; lia).
        rewrite E'. right. split; [exact Hs|]. split; [exact Hl|].
        intros k Hk. rewrite (Other k' k) by lia. exact (Hm k Hk).
    + right. unfold startup_step. rewrite U.
      assert (Keep : forall k, k < count ->
                turns_of k (schedule ++ [init_returns]) <= 2 /\
                exists m, nth_error (members s) k = Some m /\
                  pending m = skipn (turns_of k (schedule ++ [init_returns]))
                                    (thread_lambda alg b k suspend)).
      { intros k Hk. rewrite turns_of_app. cbn. rewrite Nat.add_0_r.
        exact (Hm k Hk). }
      destruct (caller_done (members s)); cbn [in_scope members];
        (split; [auto | split; [exact Hl | exact Keep]]).
Qed.

(** C6 does not hold of the code.  The barrier [b] and the closure
    [install_task_post_fiber] are locals of [init] that the thread lambda
    captures by reference, and with [use_this_thread] false nothing holds
    [init] back: it is free to return as soon as the threads are spawned.
    The barrier is constructed for the [count] threads spawned, and these
    are the parties; but from the return of [init] on, whatever the
    schedule, no spawned thread gets to call [b.wait()] on a barrier that
    exists and none hosts a dispatch fiber, and as soon as one of them has
    had three turns (its name, its scheduler, [b.wait()]) it has used the
    barrier that is no more and the behaviour is undefined. *)
Theorem init_returns_before_the_spawned_threads_wait count suspend p :
  running (instance p) = false ->
  1 <= count ->
  let s0 := startup_of false p (state_after (init alg count false suspend p)) in
  let s1 := startup_step init_returns s0 in
  parties (barrier s0) = count /\
  map party_ref (members s0) = map spawned_thread (seq 0 count) /\
  in_scope s0 = true /\
  in_scope s1 = false /\
  undefined s1 = false /\
  members s1 = members s0 /\
  (forall schedule,
     Forall (fun m => arrived m = false /\ has_fiber m = false)
            (members (run_schedule schedule s1))) /\
  (forall schedule k,
     k < count ->
     3 <= turns_of k schedule ->
     undefined (run_schedule schedule s1) = true).
Proof.
  intros Hr Hc s0 s1. subst s1 s0.
  rewrite (startup_of_init_without_caller count suspend p Hr Hc).
  unfold startup_step at 1 2 3 4 5.
  cbn [undefined members barrier parties in_scope barrier_id arrivals].
  rewrite caller_done_spawned.
  cbn [undefined members barrier parties in_scope barrier_id arrivals].
  split; [reflexivity|]. split; [rewrite map_map; reflexivity|].
  repeat (split; [reflexivity|]). split.
  - intro schedule. apply run_schedule_out_of_scope; [reflexivity|].
    cbn [members]. apply Forall_forall. intros m Hm.
    apply in_map_iff in Hm. destruct Hm as (i & <- & _). split; reflexivity.
  - intros schedule k Hk Ht.
    destruct (spawned_thread_progress (List.length (barriers p)) suspend count
                schedule) as [U|(_ & _ & Hm)]; [exact U|].
    destruct (Hm k Hk) as (Ht' & _). lia.
Qed.

End StartupOfInit.

(** * The claims on concrete pools *)

(** C1 fails as stated: after [init(2); notify_stop()] a further [init(2)]
    is not a no-op.  It sets [running] again and starts a new thread, so the
    flag has gone from false to true twice. *)
Lemma init_after_stop_restarts_the_pool :
  existsb is_notify_stop
    [call_init (W:=nat) 2 true true; call_notify_stop] = true /\
  running (instance stopped_pool) = false /\
  init shared_work 2 true true stopped_pool <> Returns tt stopped_pool /\
  running (instance (state_after (init shared_work 2 true true stopped_pool)))
  = true /\
  List.length
    (spawned_by stopped_pool
       (state_after (init shared_work 2 true true stopped_pool))) = 1 /\
  rises shared_work
    [call_init 2 true true; call_notify_stop; call_init 2 true true]
    (process0 nat) = 2 /\
  falls shared_work
    [call_init 2 true true; call_notify_stop; call_init 2 true true]
    (process0 nat) = 1.
Proof.
  repeat apply conj; try (vm_compute; reflexivity).
  intro H. vm_compute in H. discriminate H.
Qed.


(** C3 fails as stated: [init(0, false, true)] on a fresh pool returns
    normally, nothing was thrown. *)
Lemma init_zero_without_caller_reports_nothing :
  init shared_work 0 false true (process0 nat) = Returns tt (process0 nat) /\
  threw (init shared_work 0 false true (process0 nat)) = false.
Proof. split; reflexivity. Qed.

(** C4 fails as stated: of three tasks delivered before the closed signal,
    the second raises; the exception leaves the fiber, and the third task is
    never executed. *)
Lemma fault_ends_the_dispatch_loop :
  List.length
    (delivered [popped add1; popped fault; popped add1; popped_closed]) = 3 /\
  worker_fiber [popped add1; popped fault; popped add1; popped_closed] 0
  = mk_fiber_run fiber_escaped 1 2.
Proof. split; reflexivity. Qed.

Lemma worker_fiber_runs_until_fault_or_closed_witness :
  run_all [add1; add1] 0 = Some 2 /\
  worker_fiber [popped add1; popped add1; popped fault; popped add1] 0
  = mk_fiber_run fiber_escaped 2 3.
Proof.
  split; [reflexivity|].
  exact (proj1 (worker_fiber_runs_until_fault_or_closed [add1; add1] 0 2
                  eq_refl) fault 2 [popped add1] eq_refl).
Defined.

Lemma init_starts_the_pool_witness :
  running (instance stopped_pool) = false /\
  (false = true \/ 1 <= 4) /\
  exists p',
    init work_stealing 4 false true stopped_pool = Returns tt p' /\
    running (instance p') = true /\
    fiber_thread_count (instance p') = 4 /\
    List.length (spawned_by stopped_pool p') = 4.
Proof.
  split; [reflexivity|]. split; [right; lia|].
  destruct (init_starts_the_pool work_stealing 4 false true stopped_pool
              eq_refl (or_intror (le_S _ _ (le_S _ _ (le_S _ _ (le_n 1))))))
    as (p' & E & R & C & _ & L & _).
  exists p'. repeat split; assumption.
Defined.

Lemma init_single_thread_case_witness :
  running (instance (process0 nat)) = false /\
  0 < 2 /\
  exists p',
    init work_stealing 0 true true (process0 nat) = Returns tt p' /\
    barriers p' = [] /\
    schedulers p' = [(calling_thread, use_default round_robin)] /\
    m_threads (instance p') = [].
Proof.
  split; [reflexivity|]. split; [lia|].
  destruct (init_single_thread_case work_stealing 0 true (process0 nat)
              eq_refl (le_S _ _ (le_n 1)))
    as (p' & E & _ & B & S & _ & M & _).
  exists p'. repeat split; assumption.
Defined.

Lemma init_while_running_is_noop_witness :
  running (instance started_pool) = true /\
  init work_stealing 5 false false started_pool = Returns tt started_pool.
Proof.
  split; [reflexivity|].
  exact (proj1 (init_while_running_is_noop work_stealing 5 false false
                  started_pool eq_refl)).
Defined.


(** [init(2, false, true)] on a fresh pool has returned; a schedule that
    gives the second thread its three turns ends with the barrier used
    after its end. *)
Lemma init_returns_before_the_spawned_threads_wait_witness :
  running (instance (process0 nat)) = false /\
  1 <= 2 /\
  undefined
    (run_schedule [thread_turn 1; thread_turn 0; thread_turn 1; thread_turn 1]
       (startup_step init_returns startup_without_caller)) = true.
Proof.
  split; [reflexivity|]. split; [lia|].
  destruct (init_returns_before_the_spawned_threads_wait shared_work 2 true
              (process0 nat) eq_refl (le_S _ _ (le_n 1)))
    as (_ & _ & _ & _ & _ & _ & _ & U).
  exact (U [thread_turn 1; thread_turn 0; thread_turn 1; thread_turn 1] 1
           (le_n 2) (le_n 3)).
Defined.

(** With the calling thread taking part, [init(2, true, true)], the start-up
    is a race against the end of [init].  If the spawned thread is through
    the barrier and has spawned its fiber before the calling thread leaves
    [init], every party hosts a dispatch fiber and nothing is undefined. *)
Lemma startup_with_caller_can_succeed :
  let s :=
    run_schedule
      [thread_turn 0; thread_turn 0; thread_turn 0; thread_turn 1;
       thread_turn 1; thread_turn 0; thread_turn 0; thread_turn 1;
       thread_turn 1; init_returns; thread_turn 0]
      startup_with_caller in
  map party_ref (members s) = [spawned_thread 1; calling_thread] /\
  parties (barrier s) = 2 /\
  forallb passed (members s) = true /\
  forallb has_fiber (members s) = true /\
  in_scope s = false /\
  undefined s = false.
Proof. repeat apply conj; vm_compute; reflexivity. Qed.

(** If the calling thread is the last to arrive, is let through at once,
    spawns its fiber and leaves [init] while the spawned thread is still
    inside [b.wait()], the spawned thread returns into a barrier that is no
    more. *)
Lemma startup_with_caller_can_dangle :
  let s :=
    run_schedule
      [thread_turn 0; thread_turn 0; thread_turn 0; thread_turn 1;
       thread_turn 1; thread_turn 1; thread_turn 1; init_returns]
      startup_with_caller in
  in_scope s = false /\
  undefined s = false /\
  map in_wait (members s) = [true; false] /\
  map has_fiber (members s) = [false; true] /\
  undefined (startup_step (thread_turn 0) s) = true.
Proof. repeat apply conj; vm_compute; reflexivity. Qed.


(** * Further properties of the code *)

Section Dispatch.
Context {W : Type}.

(** X3: what the dispatch fiber comes to is decided by the tasks it receives
    before the first closed signal.  If each of them returns, the fiber has
    executed all of them, once each and in order, and it has left the loop
    exactly when a closed signal was among the results; tasks delivered after
    the signal are never executed.  If one of them raises, the exception
    leaves the fiber after at least one and at most all of them have been
    started. *)
Theorem worker_fiber_exit_classified (pops : list (pop_result W)) (w : W) :
  match run_all (delivered pops) w with
  | Some w' =>
      worker_fiber pops w
      = mk_fiber_run
          (if existsb is_popped_closed pops then fiber_returned
           else fiber_suspended)
          w' (List.length (delivered pops))
  | None =>
      fiber_exit (worker_fiber pops w) = fiber_escaped /\
      1 <= executed (worker_fiber pops w) <= List.length (delivered pops)
  end.
Proof.
  revert w. induction pops as [|[task|] pops IH]; intro w; cbn;
    try reflexivity.
  destruct (task w) as [w'|w'].
  - specialize (IH w'). destruct (run_all (delivered pops) w').
    + rewrite IH. reflexivity.
    + destruct IH as (E & L). cbn. split; [exact E | lia].
  - cbn. split; [reflexivity | lia].
Qed.

End Dispatch.

Section Sequences.
Context {W : Type}.
Variable alg : algorithm.
Implicit Types (p q : process W).

Ltac unfold_call :=
  cbv beta iota delta
      [bind ret Monad_call call_bind gets modify throw block perform
       wait_not_running new_thread_barrier notify_all task_channel_push];
  cbn [instance running fiber_thread_count m_cnd_stop m_threads task_channel
       barriers schedulers fibers trace on_instance set_running
       set_fiber_thread_count set_m_cnd_stop set_m_threads set_task_channel
       add_barrier add_scheduler add_fiber log negb andb orb state_after
       outcome_bind].

(** The four ways through [init]. *)
Ltac init_cases count use suspend p :=
  let Hr := fresh "Hr" in
  let Hlt := fresh "Hlt" in
  let Hge := fresh "Hge" in
  destruct (running (instance p)) eqn:Hr;
  [ rewrite (init_running alg count use suspend p Hr)
  | destruct (Nat.ltb_spec count (if use then 2 else 1)) as [Hlt|Hge];
    [ destruct use;
      [ rewrite (init_single alg count suspend p Hr Hlt)
      | rewrite (init_rejected alg count suspend p Hlt) ]
    | rewrite (init_multi alg count use suspend p Hr Hge); cbv zeta;
      destruct use ] ];
  cbn [state_after].

Lemma joins_in_app es es' : joins_in (es ++ es') = joins_in es ++ joins_in es'.
Proof. apply flat_map_app. Qed.

Lemma thread_frame_refl p : thread_frame p p.
Proof. repeat split. Qed.

Lemma thread_frame_trans p q r :
  thread_frame p q -> thread_frame q r -> thread_frame p r.
Proof.
  intros (R1 & C1 & T1 & N1 & J1 & S1) (R2 & C2 & T2 & N2 & J2 & S2).
  repeat split; try congruence.
  intro H. rewrite S2, S1; congruence.
Qed.

Lemma perform_frame who a p :
  thread_frame p (state_after (perform who a p)) /\
  threw (perform who a p) = false.
Proof.
  unfold thread_frame.
  destruct a; unfold_call;
    try destruct (running (instance p)) eqn:Hr;
    cbn [state_after threw trace instance running task_channel m_threads
         fiber_thread_count m_cnd_stop];
    rewrite ?joins_in_app; cbn [joins_in flat_map app];
    rewrite ?app_nil_r; repeat split; auto; try discriminate.
  cbn. rewrite joins_in_app. apply app_nil_r.
Qed.

Lemma for_each_perform_frame who (l : list action) p :
  thread_frame p (state_after (for_each l (perform who) p)) /\
  threw (for_each l (perform who) p) = false.
Proof.
  revert p. induction l as [|a l IH]; intro p.
  - split; [apply thread_frame_refl | reflexivity].
  - cbn [for_each]. rewrite bind_unfold. unfold call_bind.
    destruct (perform_frame who a p) as [F T].
    destruct (perform who a p) as [[] q|e q|q|q k];
      cbn [state_after outcome_bind threw] in *.
    + destruct (IH q) as [F' T']. split; [|exact T'].
      eapply thread_frame_trans; eassumption.
    + discriminate T.
    + split; [exact F | reflexivity].
    + split; [exact F | reflexivity].
Qed.

Lemma thread_run_frame k p :
  thread_frame p (state_after (thread_run k p)) /\
  threw (thread_run k p) = false.
Proof.
  unfold thread_run. rewrite bind_unfold. unfold call_bind, gets.
  cbn [outcome_bind].
  destruct (nth_error (m_threads (instance p)) k) as [t|].
  - apply for_each_perform_frame.
  - split; [apply thread_frame_refl | reflexivity].
Qed.

(** What [init] leaves alone, on each of its four ways. *)
Lemma init_frame count (use : bool) suspend p :
  let q := state_after (init alg count use suspend p) in
  task_channel (instance q) = task_channel (instance p) /\
  m_cnd_stop (instance q) = m_cnd_stop (instance p) /\
  joins_in (trace q) = joins_in (trace p) /\
  (exists l, m_threads (instance q) = m_threads (instance p) ++ l) /\
  (running (instance q) = false -> running (instance p) = false).
Proof.
  init_cases count use suspend p; cbn;
    rewrite ?joins_in_app; cbn; rewrite ?app_nil_r;
    repeat split; try discriminate; try congruence;
    try (exists []; rewrite app_nil_r; reflexivity); eauto.
Qed.

Lemma join_one_frame k p :
  running (instance (join_one k p)) = running (instance p) /\
  task_channel (instance (join_one k p)) = task_channel (instance p) /\
  m_cnd_stop (instance (join_one k p)) = m_cnd_stop (instance p).
Proof.
  unfold join_one.
  destruct (nth_error (m_threads (instance p)) k) as [t|]; [|repeat split].
  destruct (joinable t); repeat split.
Qed.

Lemma join_range_frame lo len p :
  running (instance (join_range lo len p)) = running (instance p) /\
  task_channel (instance (join_range lo len p)) = task_channel (instance p) /\
  m_cnd_stop (instance (join_range lo len p)) = m_cnd_stop (instance p).
Proof.
  revert lo p. induction len as [|len IH]; intros lo p; [repeat split|].
  cbn [join_range]. destruct (IH (S lo) (join_one lo p)) as (R & C & S).
  destruct (join_one_frame lo p) as (R' & C' & S').
  repeat split; congruence.
Qed.

(** [join] on a running pool: the calling thread is parked and nothing else
    happens. *)
Lemma join_running p :
  running (instance p) = true ->
  join p
  = Blocks (on_instance
              (set_m_cnd_stop (m_cnd_stop (instance p) ++ [calling_thread])) p).
Proof. intro H. unfold join. unfold_call. rewrite H. reflexivity. Qed.

(** [join] on a pool that is not running, with what it leaves alone. *)
Lemma join_stopped_frame p :
  running (instance p) = false ->
  exists p',
    join p = Returns tt p' /\
    m_threads (instance p') = map joined (m_threads (instance p)) /\
    joins_in (trace p')
    = joins_in (trace p) ++ joinable_positions 0 (m_threads (instance p)) /\
    running (instance p') = false /\
    task_channel (instance p') = task_channel (instance p) /\
    m_cnd_stop (instance p') = m_cnd_stop (instance p).
Proof.
  intro H. destruct (join_stopped p H) as (p' & E & M & J & R).
  exists p'. repeat split; try assumption.
  - rewrite (join_run p H) in E. injection E as <-.
    destruct (join_range_frame 0 (List.length (m_threads (instance p)))
                (log (did calling_thread wait_until_stopped) p))
      as (_ & C & _). exact C.
  - rewrite (join_run p H) in E. injection E as <-.
    destruct (join_range_frame 0 (List.length (m_threads (instance p)))
                (log (did calling_thread wait_until_stopped) p))
      as (_ & _ & S). exact S.
Qed.

(** *** What every reachable pool satisfies *)

Lemma joinable_positions_spec lo (ts : list std_thread) k :
  In k (joinable_positions lo ts) ->
  lo <= k /\
  exists t, nth_error ts (k - lo) = Some t /\ joinable t = true.
Proof.
  revert lo. induction ts as [|t ts IH]; intros lo H; [contradiction|].
  cbn in H. apply in_app_or in H. destruct H as [H|H].
  - destruct (joinable t) eqn:J; [|contradiction].
    destruct H as [<-|[]]. split; [lia|].
    rewrite Nat.sub_diag. exists t. auto.
  - destruct (IH _ H) as (L & t' & E & J). split; [lia|].
    exists t'. split; [|exact J].
    replace (k - lo) with (S (k - S lo)) by lia. exact E.
Qed.

Lemma joinable_positions_NoDup lo (ts : list std_thread) :
  NoDup (joinable_positions lo ts).
Proof.
  revert lo. induction ts as [|t ts IH]; intro lo; [constructor|].
  cbn. destruct (joinable t); cbn; [|apply IH].
  constructor; [|apply IH].
  intro H. apply joinable_positions_spec in H. lia.
Qed.

Lemma NoDup_app_disjoint {A} (l l' : list A) :
  NoDup l -> NoDup l' -> (forall x, In x l -> ~ In x l') -> NoDup (l ++ l').
Proof.
  intros Hl Hl' D. induction Hl as [|x l Hx Hl IH]; [exact Hl'|].
  cbn. constructor.
  - intro H. apply in_app_or in H. destruct H as [H|H]; [auto|].
    apply (D x); [left; reflexivity | exact H].
  - apply IH. intros y Hy. apply D. right. exact Hy.
Qed.

Lemma frame_keeps_inv p q : thread_frame p q -> pool_inv p -> pool_inv q.
Proof.
  intros (R & _ & T & _ & J & S) (I1 & I2 & I3).
  unfold pool_inv. rewrite R, T, J. repeat split; auto.
  intro H. rewrite (S H). auto.
Qed.

Lemma call_keeps_inv (c : member_call W) p :
  pool_inv p -> pool_inv (state_after (run_call alg c p)).
Proof.
  intros (I1 & I2 & I3).
  destruct c as [count use suspend|task| |]; cbn [run_call].
  - destruct (init_frame count use suspend p) as (_ & S & J & (l & M) & R).
    unfold pool_inv. rewrite S, J, M. repeat split; auto.
    eapply Forall_impl; [|exact I3]. intros k (t & E & Jt).
    exists t. split; [|exact Jt].
    rewrite nth_error_app1; [exact E|].
    apply nth_error_Some. congruence.
  - rewrite post_run. cbn [state_after].
    destruct (is_closed (task_channel (instance p))); repeat split; auto.
  - unfold pool_inv. cbn. rewrite joins_in_app. cbn. rewrite app_nil_r.
    repeat split; auto.
  - destruct (running (instance p)) eqn:Hr.
    + rewrite (join_running p Hr). unfold pool_inv. cbn. rewrite Hr.
      repeat split; auto. discriminate.
    + destruct (join_stopped_frame p Hr)
        as (p' & -> & M & J & R & _ & S).
      unfold pool_inv. cbn [state_after]. rewrite M, J, S.
      repeat split; auto.
      * apply NoDup_app_disjoint; auto using joinable_positions_NoDup.
        intros k Hk Hk'. rewrite Forall_forall in I3.
        destruct (I3 k Hk) as (t & E & Jt).
        destruct (joinable_positions_spec _ _ _ Hk') as (_ & t' & E' & Jt').
        rewrite Nat.sub_0_r in E'. congruence.
      * apply Forall_forall. intros k Hk.
        assert (exists t, nth_error (m_threads (instance p)) k = Some t)
          as (t & E).
        { apply in_app_or in Hk. destruct Hk as [Hk|Hk].
          - rewrite Forall_forall in I3. destruct (I3 k Hk) as (t & E & _).
            eauto.
          - destruct (joinable_positions_spec _ _ _ Hk) as (_ & t & E & _).
            rewrite Nat.sub_0_r in E. eauto. }
        exists (joined t). split; [|reflexivity].
        rewrite nth_error_map, E. reflexivity.
Qed.

Lemma event_keeps_inv (e : pool_event W) p :
  pool_inv p -> pool_inv (state_after (run_event alg e p)).
Proof.
  destruct e as [c|k]; cbn [run_event].
  - apply call_keeps_inv.
  - apply frame_keeps_inv, thread_run_frame.
Qed.

Lemma events_keep_inv (es : list (pool_event W)) p :
  pool_inv p -> pool_inv (run_events alg es p).
Proof.
  revert p. induction es as [|e es IH]; intros p H; [exact H|].
  cbn. apply IH, event_keeps_inv, H.
Qed.

Lemma fresh_pool_inv : pool_inv (process0 W).
Proof. repeat split; constructor. Qed.


(** X10: however calls of the member functions and runs of the spawned
    threads follow one another on a fresh pool, whenever [running] is false
    no thread is left suspended on [m_cnd_stop]: a thread can park only
    while the pool is running, and [notify_stop] wakes all that are
    parked. *)
Theorem nobody_is_parked_on_a_stopped_pool (es : list (pool_event W)) :
  let p := run_events alg es (process0 W) in
  running (instance p) = false -> m_cnd_stop (instance p) = [].
Proof. apply (events_keep_inv es (process0 W) fresh_pool_inv). Qed.


(** X13: with the calling thread taking part and a count below 2, [init]
    does not depend on the scheduling algorithm the class is instantiated
    with, in any state of the pool; and the scheduler it installs does not
    depend on [suspend_worker_thread] either, because [round_robin] goes
    through the primary template, which passes no argument on. *)
Theorem single_thread_case_ignores_the_algorithm
    (alg' : algorithm) count suspend suspend' p :
  count < 2 ->
  init alg count true suspend p = init alg' count true suspend p /\
  schedulers (state_after (init alg count true suspend p))
  = schedulers (state_after (init alg' count true suspend' p)).
Proof.
  intro Hc. destruct (running (instance p)) eqn:Hr.
  - rewrite !init_running by exact Hr. split; reflexivity.
  - rewrite !init_single by assumption. split; reflexivity.
Qed.

End Sequences.

(** *** Thread names *)

Lemma append_inj_l (s a b : string) :
  String.append s a = String.append s b -> a = b.
Proof.
  induction s as [|c s IH]; cbn; intro H; [exact H|].
  injection H as H. exact (IH H).
Qed.

Lemma fiber_thread_name_inj i j :
  fiber_thread_name i = fiber_thread_name j -> i = j.
Proof.
  unfold fiber_thread_name. intro H. apply append_inj_l in H.
  apply DecimalNat.Unsigned.to_uint_inj.
  pose proof (NilEmpty.usu (Nat.to_uint i)) as Hi.
  pose proof (NilEmpty.usu (Nat.to_uint j)) as Hj.
  congruence.
Qed.

Lemma NoDup_map_injective {A B} (f : A -> B) (l : list A) :
  (forall x y, f x = f y -> x = y) -> NoDup l -> NoDup (map f l).
Proof.
  intros Hf H. induction H as [|x l Hx _ IH]; cbn; constructor; [|exact IH].
  intro Hin. apply in_map_iff in Hin. destruct Hin as (y & E & Hy).
  apply Hf in E. subst y. contradiction.
Qed.

Section Names.
Context {W : Type}.
Variable alg : algorithm.

(** X11: the threads one [init] spawns name themselves [Fiber-Thread-i],
    with [i] the decimal loop index, counted from 1 when the calling thread
    takes part and from 0 otherwise; no two of them have the same name. *)
Theorem spawned_threads_have_distinct_names
    count (use : bool) suspend (p : process W) :
  running (instance p) = false ->
  use = true \/ 1 <= count ->
  let lo := if use then 1 else 0 in
  let ts := spawned_by p (state_after (init alg count use suspend p)) in
  map thread_name ts
  = map (fun i => Some (fiber_thread_name i)) (seq lo (count - lo)) /\
  NoDup (map thread_name ts).
Proof.
  intros Hr Hv lo ts. subst ts.
  destruct (init_started alg count use suspend p Hr Hv)
    as (p1 & E & _ & _ & _ & S1).
  rewrite E. cbn [state_after]. rewrite S1. unfold new_threads.
  rewrite map_map. cbn [thread_name thread_main thread_lambda].
  split; [reflexivity|].
  apply NoDup_map_injective; [|apply seq_NoDup].
  intros i j H. apply fiber_thread_name_inj. congruence.
Qed.

End Names.

(** *** The further properties on concrete pools *)


Lemma nobody_is_parked_on_a_stopped_pool_witness :
  running
    (instance
       (run_events shared_work
          [by_caller (call_init 3 true true); by_thread 0; by_thread 1;
           by_caller call_join; by_caller call_notify_stop]
          (process0 nat))) = false /\
  m_cnd_stop
    (instance
       (run_events shared_work
          [by_caller (call_init 3 true true); by_thread 0; by_thread 1;
           by_caller call_join; by_caller call_notify_stop]
          (process0 nat))) = [].
Proof.
  split; [vm_compute; reflexivity|].
  apply (nobody_is_parked_on_a_stopped_pool shared_work
           [by_caller (call_init 3 true true); by_thread 0; by_thread 1;
            by_caller call_join; by_caller call_notify_stop]).
  vm_compute. reflexivity.
Defined.

Lemma spawned_threads_have_distinct_names_witness :
  running (instance (process0 nat)) = false /\
  (true = true \/ 1 <= 3) /\
  NoDup
    (map thread_name
       (spawned_by (process0 nat)
          (state_after (init shared_work 3 true true (process0 nat))))).
Proof.
  split; [reflexivity|]. split; [left; reflexivity|].
  exact (proj2 (spawned_threads_have_distinct_names shared_work 3 true true
                  (process0 nat) eq_refl (or_introl eq_refl))).
Defined.

Lemma single_thread_case_ignores_the_algorithm_witness :
  1 < 2 /\
  init shared_work 1 true true (process0 nat)
  = init work_stealing 1 true true (process0 nat).
Proof.
  split; [lia|].
  exact (proj1 (single_thread_case_ignores_the_algorithm shared_work
                  work_stealing 1 true false (process0 nat) (le_n 2))).
Defined.
